(** * wsdlgo: the WSDL to Go encoder, embedded in Rocq.

    The development follows the source file of package [wsdlgo]: the import
    resolver ([importParts] and friends), the type flattener
    ([flatTypeElements]), the emitters ([writeGoTypes], [genGoStruct],
    [writeInterfaceFuncs], [writeGoClientFuncs], [writeSOAPFunc]) and the
    driver ([encode], [Encode]).

    Go strings are byte strings: they are modelled by [string] (a list of
    [ascii], one per byte).  Go maps are [gmap]s; a slice is a [list] (the
    XML decoder never produces an empty non-nil slice, so [nil] and the empty
    slice are both the empty list).  Pointers to complex types are addresses
    in an explicit store, since the flattener mutates complex types that are
    shared between the registry and the sequences that refer to them. *)

From stdpp Require Import gmap strings list sorting pretty.
From Stdlib Require Import ZArith Ascii String Permutation.

Local Open Scope Z_scope.
Local Open Scope stdpp_scope.

(** ** Bytes and Go's [strings] package *)

Module GoStrings.

Definition dq : string := String "034"%char EmptyString.
Definition nl : string := String "010"%char EmptyString.
Definition tab : string := String "009"%char EmptyString.
Definition bq : string := String "096"%char EmptyString.
Definition bsl : string := String "092"%char EmptyString.

Definition byte_in (lo hi : nat) (c : ascii) : bool :=
  (Nat.leb lo (nat_of_ascii c) && Nat.leb (nat_of_ascii c) hi)%bool.

Definition is_digit (c : ascii) : bool := byte_in 48 57 c.
Definition is_lower (c : ascii) : bool := byte_in 97 122 c.
Definition is_upper (c : ascii) : bool := byte_in 65 90 c.
Definition is_letter (c : ascii) : bool := (is_lower c || is_upper c)%bool.
Definition is_underscore (c : ascii) : bool := Nat.eqb (nat_of_ascii c) 95.

Definition to_upper (c : ascii) : ascii :=
  if is_lower c then ascii_of_nat (nat_of_ascii c - 32) else c.
Definition to_lower (c : ascii) : ascii :=
  if is_upper c then ascii_of_nat (nat_of_ascii c + 32) else c.

Fixpoint map_bytes (f : ascii → ascii) (s : string) : string :=
  match s with
  | EmptyString => EmptyString
  | String c s' => String (f c) (map_bytes f s')
  end.

Definition byte_is (n : nat) (c : ascii) : bool := Nat.eqb (nat_of_ascii c) n.

(** [strings.ToLower], as far as its result is ASCII.  An ASCII letter is
    lower-cased, and so are the two runes beyond ASCII whose lower case is
    an ASCII letter: U+0130 (the bytes C4 B0) becomes [i] and U+212A (the
    bytes E2 84 AA) becomes [k].  Every other byte from 0x80 on is kept,
    where [strings.ToLower] writes the lower case of the rune the byte
    belongs to, or U+FFFD for a byte that belongs to none: there both
    results hold a byte from 0x80 on, and both differ from every ASCII word.
    The one caller, [wsdl2goType], compares the result with ASCII words
    only. *)
Fixpoint ToLower (s : string) : string :=
  match s with
  | EmptyString => EmptyString
  | String c1 s1 =>
      match s1 with
      | String c2 s2 =>
          if (byte_is 196 c1 && byte_is 176 c2)%bool then String "i"%char (ToLower s2)
          else
            match s2 with
            | String c3 s3 =>
                if (byte_is 226 c1 && byte_is 132 c2 && byte_is 170 c3)%bool
                then String "k"%char (ToLower s3)
                else String (to_lower c1) (ToLower s1)
            | EmptyString => String (to_lower c1) (ToLower s1)
            end
      | EmptyString => String (to_lower c1) EmptyString
      end
  end.

Definition len (s : string) : nat := String.length s.

(** [s[:n]] and [s[n:]]; Go panics when [n] exceeds the length, which the
    callers below check before slicing. *)
Definition slice_to (n : nat) (s : string) : string := String.substring 0 n s.
Definition slice_from (n : nat) (s : string) : string :=
  String.substring n (String.length s - n) s.

Fixpoint HasPrefix (s p : string) {struct p} : bool :=
  match p, s with
  | EmptyString, _ => true
  | String a p', String b s' => if decide (a = b) then HasPrefix s' p' else false
  | String _ _, EmptyString => false
  end.

Definition TrimPrefix (s p : string) : string :=
  if HasPrefix s p then slice_from (String.length p) s else s.

(** [strings.Split(s, sep)] for a one-byte separator. *)
Fixpoint split_go (sep : ascii) (cur : string) (s : string) : list string :=
  match s with
  | EmptyString => [String.rev cur]
  | String c s' =>
      if decide (c = sep) then String.rev cur :: split_go sep EmptyString s'
      else split_go sep (String c cur) s'
  end.
Definition Split (s : string) (sep : ascii) : list string :=
  split_go sep EmptyString s.

(** [strings.SplitN(s, sep, 2)] for a one-byte separator: cut at the first
    separator, or the whole string when there is none. *)
Fixpoint cut_go (sep : ascii) (cur : string) (s : string) : option (string * string) :=
  match s with
  | EmptyString => None
  | String c s' =>
      if decide (c = sep) then Some (String.rev cur, s')
      else cut_go sep (String c cur) s'
  end.
Definition SplitN2 (s : string) (sep : ascii) : list string :=
  match cut_go sep EmptyString s with
  | Some (a, b) => [a; b]
  | None => [s]
  end.

Fixpoint Join (l : list string) (sep : string) : string :=
  match l with
  | [] => EmptyString
  | [x] => x
  | x :: l' => x +:+ sep +:+ Join l' sep
  end.

Fixpoint concat_all (l : list string) : string :=
  match l with
  | [] => EmptyString
  | x :: l' => x +:+ concat_all l'
  end.

(** [strings.Replace(s, "\n", " ", -1)]. *)
Definition newline_to_space (s : string) : string :=
  map_bytes (λ c, if decide (c = "010"%char) then " "%char else c) s.

Fixpoint trim_left (p : ascii → bool) (s : string) : string :=
  match s with
  | EmptyString => EmptyString
  | String c s' => if p c then trim_left p s' else s
  end.
Definition trim_both (p : ascii → bool) (s : string) : string :=
  String.rev (trim_left p (String.rev (trim_left p s))).

(** [strings.Trim(s, " ")]. *)
Definition Trim_space (s : string) : string :=
  trim_both (λ c, bool_decide (c = " "%char)) s.

(** [strings.TrimSpace]: the white space at both ends is cut off, as
    [unicode.IsSpace] defines it.  That is the six ASCII bytes tab, line
    feed, vertical tab, form feed, carriage return and space, and the runes
    U+0085, U+00A0 (two bytes in UTF-8), U+1680, U+2000 to U+200A, U+2028,
    U+2029, U+202F, U+205F and U+3000 (three bytes).  The encodings of these
    runes are the only byte sequences that decode to them, forwards and
    backwards; any other byte from 0x80 on, part of another rune or of
    none, is no white space and ends the trimming. *)
Definition is_space (c : ascii) : bool :=
  (byte_in 9 13 c || byte_is 32 c)%bool.
Definition is_space2 (c1 c2 : ascii) : bool :=
  (byte_is 194 c1 && (byte_is 133 c2 || byte_is 160 c2))%bool.
Definition is_space3 (c1 c2 c3 : ascii) : bool :=
  (byte_is 225 c1 && byte_is 154 c2 && byte_is 128 c3 ||
   byte_is 226 c1 && byte_is 128 c2 &&
     (byte_in 128 138 c3 || byte_is 168 c3 || byte_is 169 c3 || byte_is 175 c3) ||
   byte_is 226 c1 && byte_is 129 c2 && byte_is 159 c3 ||
   byte_is 227 c1 && byte_is 128 c2 && byte_is 128 c3)%bool.

(** The white space at the start of [s] is cut off; [sp2] and [sp3] tell
    which two and three bytes are a white space rune. *)
Fixpoint trim_space_go (sp2 : ascii → ascii → bool) (sp3 : ascii → ascii → ascii → bool)
    (s : string) : string :=
  match s with
  | EmptyString => s
  | String c1 s1 =>
      if is_space c1 then trim_space_go sp2 sp3 s1
      else
        match s1 with
        | EmptyString => s
        | String c2 s2 =>
            if sp2 c1 c2 then trim_space_go sp2 sp3 s2
            else
              match s2 with
              | EmptyString => s
              | String c3 s3 => if sp3 c1 c2 c3 then trim_space_go sp2 sp3 s3 else s
              end
        end
  end.

(** First the start, then the end, which is the start of the reversed
    string, where the bytes of a rune come in the reverse order. *)
Definition TrimSpace (s : string) : string :=
  String.rev
    (trim_space_go (λ c2 c1, is_space2 c1 c2) (λ c3 c2 c1, is_space3 c1 c2 c3)
       (String.rev (trim_space_go is_space2 is_space3 s))).

(** [strings.Title] on ASCII text: the first letter of every word is
    upper-cased; a word starts after a separator, and letters, digits and
    the underscore are the bytes that are not separators.  The one caller,
    [goSymbol], applies it to text in which the regular expression has left
    only ASCII letters, digits and underscores. *)
Definition isSeparator (c : ascii) : bool :=
  if Nat.leb 128 (nat_of_ascii c) then false
  else negb (is_letter c || is_digit c || is_underscore c)%bool.
Fixpoint title_go (prev : ascii) (s : string) : string :=
  match s with
  | EmptyString => EmptyString
  | String c s' =>
      String (if isSeparator prev then to_upper c else c) (title_go c s')
  end.
Definition Title (s : string) : string := title_go " "%char s.

Definition hex_digit (n : nat) : ascii :=
  if Nat.ltb n 10 then ascii_of_nat (48 + n) else ascii_of_nat (87 + n).

(** [strconv.Quote], the [%q] verb, on ASCII text: printable ASCII is
    copied, the quote and the backslash are escaped, control bytes get their
    Go escapes.  A byte from 0x80 on is copied, which is what [strconv.Quote]
    does with the bytes of a printable rune; it escapes the runes the Unicode
    tables list as not printable and the bytes that belong to no rune. *)
Definition quote_byte (c : ascii) : string :=
  let n := nat_of_ascii c in
  if Nat.eqb n 34 then bsl +:+ dq
  else if Nat.eqb n 92 then bsl +:+ bsl
  else if Nat.eqb n 7 then bsl +:+ "a"
  else if Nat.eqb n 8 then bsl +:+ "b"
  else if Nat.eqb n 12 then bsl +:+ "f"
  else if Nat.eqb n 10 then bsl +:+ "n"
  else if Nat.eqb n 13 then bsl +:+ "r"
  else if Nat.eqb n 9 then bsl +:+ "t"
  else if Nat.eqb n 11 then bsl +:+ "v"
  else if (Nat.ltb n 32 || Nat.eqb n 127)%bool then
    bsl +:+ "x" +:+ String (hex_digit (n / 16)) (String (hex_digit (n mod 16)) EmptyString)
  else String c EmptyString.
Fixpoint quote_body (s : string) : string :=
  match s with
  | EmptyString => EmptyString
  | String c s' => quote_byte c +:+ quote_body s'
  end.
Definition Quote (s : string) : string := dq +:+ quote_body s +:+ dq.

(** Does [sub] occur in [s]?  Used to read properties off generated text. *)
Fixpoint Contains (s sub : string) : bool :=
  if HasPrefix s sub then true
  else match s with
       | EmptyString => false
       | String _ s' => Contains s' sub
       end.

End GoStrings.

Import GoStrings.

(** ** Symbols and comments *)

(** [trimns]: drop the namespace prefix, the text up to the first colon. *)
Definition trimns (s : string) : string :=
  match SplitN2 s ":"%char with
  | [_; b] => b
  | _ => s
  end.

(** The regular expression [invalidGoSymbol] is
    [[0-9_]*[^0-9a-zA-Z_]+]: a possibly empty run of digits and underscores
    followed by a non-empty run of bytes that are no digit, letter or
    underscore.  [replace_invalid] is [ReplaceAllString(s, " ")] for it: the
    leftmost match is taken, both runs are greedy, and since the two classes
    are disjoint a run of digits and underscores belongs to a match exactly
    when a byte of the second class follows it.  [pend] holds the run of
    digits and underscores read so far, [inX] tells that the second run has
    started. *)
Definition is_D (c : ascii) : bool := (is_digit c || is_underscore c)%bool.
Definition is_X (c : ascii) : bool :=
  negb (is_digit c || is_letter c || is_underscore c)%bool.

Fixpoint replace_invalid (pend : string) (inX : bool) (s : string) : string :=
  match s with
  | EmptyString => if inX then " " else String.rev pend
  | String c s' =>
      if is_X c then replace_invalid EmptyString true s'
      else if inX then
        String " "%char
          (if is_D c then replace_invalid (String c EmptyString) false s'
           else String c (replace_invalid EmptyString false s'))
      else if is_D c then replace_invalid (String c pend) false s'
      else String.rev pend +:+ String c (replace_invalid EmptyString false s')
  end.

Definition goSymbol (s : string) : string :=
  let v := replace_invalid EmptyString false (trimns s) in
  concat_all (Title <$> Split v " "%char).

(** [writeComments]: the text it writes, capped at about 80 columns. *)
Fixpoint writeComments_go (count : nat) (line : string) (words : list string) : string :=
  match words with
  | [] => if decide (line = EmptyString) then EmptyString else line +:+ nl
  | word :: words' =>
      let '(count, line) :=
        if decide (line = EmptyString) then (2%nat, "//") else (count, line) in
      let count := (count + len word)%nat in
      if Nat.ltb 60 count then
        line +:+ " " +:+ word +:+ nl +:+ writeComments_go 0 EmptyString words'
      else writeComments_go (S count) (line +:+ " " +:+ word) words'
  end.

Definition writeComments (typeName comment : string) : string :=
  let comment := Trim_space (newline_to_space comment) in
  let comment :=
    if decide (comment = EmptyString)
    then goSymbol typeName +:+ " was auto-generated from WSDL."
    else comment in
  writeComments_go 0 EmptyString (Split comment " "%char).

(** ** Outcomes of Go code

    A call either returns ([Done]), panics ([Fault], with the message of the
    runtime error or of the [panic] call), or is still running when the fuel
    of the model is used up ([Timeout]).  An [error] result is a value: the
    functions that return [error] return [option string] inside [Done]. *)

Inductive outcome (A : Type) : Type :=
| Done (a : A)
| Fault (msg : string)
| Timeout.
Arguments Done {A} a.
Arguments Fault {A} msg.
Arguments Timeout {A}.

Global Instance outcome_ret : MRet outcome := λ A a, Done a.
Global Instance outcome_bind : MBind outcome := λ A B f m,
  match m with
  | Done a => f a
  | Fault msg => Fault msg
  | Timeout => Timeout
  end.

Definition error := option string.

(** ** The schema object model (package [wsdl])

    The declarations of package [wsdl] are not part of the encoder's source
    file; the records below carry the fields the encoder reads and writes,
    under the names it uses for them. *)

Module wsdl.

Definition addr := nat.

Record AnyElement := mkAnyElement {
  AnyElement_Min : Z;
  AnyElement_Max : string }.

Record Element := mkElement {
  Element_Name : string;
  Element_Type : string;
  Element_Ref : string;
  Element_Min : Z;
  Element_Max : string;
  Element_Nillable : bool;
  Element_Tag : string;
  Element_ComplexType : option addr }.

Record Attribute := mkAttribute {
  Attribute_Name : string;
  Attribute_Type : string;
  Attribute_Ref : string;
  Attribute_TagName : string;
  Attribute_ArrayType : string;
  Attribute_Nillable : bool;
  Attribute_Min : Z }.

(** A sequence holds choices and a choice may hold a sequence. *)
Inductive Sequence := mkSequence
  (ComplexTypes : list addr) (Elements : list Element)
  (Any : list AnyElement) (Choices : list Choice)
with Choice := mkChoice
  (ComplexTypes : list addr) (Elements : list Element)
  (Any : list AnyElement) (Sequence_ : option Sequence).

Definition Sequence_ComplexTypes (s : Sequence) := let 'mkSequence c _ _ _ := s in c.
Definition Sequence_Elements (s : Sequence) := let 'mkSequence _ e _ _ := s in e.
Definition Sequence_Any (s : Sequence) := let 'mkSequence _ _ a _ := s in a.
Definition Sequence_Choices (s : Sequence) := let 'mkSequence _ _ _ c := s in c.
Definition Choice_ComplexTypes (c : Choice) := let 'mkChoice t _ _ _ := c in t.
Definition Choice_Elements (c : Choice) := let 'mkChoice _ e _ _ := c in e.
Definition Choice_Any (c : Choice) := let 'mkChoice _ _ a _ := c in a.
Definition Choice_Sequence (c : Choice) := let 'mkChoice _ _ _ s := c in s.

(** [&wsdl.Sequence{}] *)
Definition emptySequence : Sequence := mkSequence [] [] [] [].

Record Extension := mkExtension {
  Extension_Base : string;
  Extension_Sequence : option Sequence;
  Extension_Choice : option Choice;
  Extension_Attributes : list Attribute }.

Record EnumValue := mkEnumValue { EnumValue_Value : string }.

Record Restriction := mkRestriction {
  Restriction_Base : string;
  Restriction_Enum : list EnumValue;
  Restriction_Attributes : list Attribute }.

Record ComplexContent := mkComplexContent {
  ComplexContent_Extension : option Extension;
  ComplexContent_Restriction : option Restriction }.

Record SimpleContent := mkSimpleContent {
  SimpleContent_Extension : option Extension;
  SimpleContent_Restriction : option Restriction }.

Record ComplexType := mkComplexType {
  ComplexType_Name : string;
  ComplexType_TargetNamespace : string;
  ComplexType_Abstract : bool;
  ComplexType_Doc : string;
  ComplexType_AllElements : list Element;
  ComplexType_Attributes : list Attribute;
  ComplexType_Sequence : option Sequence;
  ComplexType_Choice : option Choice;
  ComplexType_ComplexContent : option ComplexContent;
  ComplexType_SimpleContent : option SimpleContent }.

Record Union := mkUnion {
  Union_MemberTypes : string;
  Union_SimpleTypes : list (option Restriction) }.

Record SimpleType := mkSimpleType {
  SimpleType_Name : string;
  SimpleType_TargetNamespace : string;
  SimpleType_Restriction : option Restriction;
  SimpleType_Union : option Union }.

Record Part := mkPart {
  Part_Name : string;
  Part_Type : string;
  Part_Element : string }.

Record Message := mkMessage {
  Message_Name : string;
  Message_Parts : list Part }.

(** [op.Input] and [op.Output] are pointers to a record whose [Message]
    field names the message; [None] is the nil pointer. *)
Record Operation := mkOperation {
  Operation_Name : string;
  Operation_Doc : string;
  Operation_Input : option string;
  Operation_Output : option string }.

(** [bo.Operation.Action] is the action of the SOAP 1.2 binding element,
    [bo.Operation11.Action] that of the SOAP 1.1 one. *)
Record BindingOperation := mkBindingOperation {
  BindingOperation_Name : string;
  BindingOperation_Action : string;
  BindingOperation_Action11 : string }.

Record Binding := mkBinding {
  Binding_Name : string;
  Binding_Type : string;
  Binding_Style : option string;
  Binding_Operations : list BindingOperation }.

Record PortType := mkPortType {
  PortType_Name : string;
  PortType_Operations : list Operation }.

(** The top-level complex types of a schema are listed by value; the
    complex types nested in them are referred to by address. *)
Record Schema := mkSchema {
  Schema_TargetNamespace : string;
  Schema_Namespaces : gmap string string;
  Schema_Imports : list string;
  Schema_Includes : list string;
  Schema_SimpleTypes : list SimpleType;
  Schema_ComplexTypes : list ComplexType;
  Schema_Elements : list Element }.

Record Definitions := mkDefinitions {
  Definitions_TargetNamespace : string;
  Definitions_Namespaces : gmap string string;
  Definitions_Imports : list string;
  Definitions_Schema : Schema;
  Definitions_Messages : list Message;
  Definitions_PortType : PortType;
  Definitions_Binding : Binding }.

End wsdl.

Import wsdl.

(** Field updates, written [ct.F = v] in the source. *)
Definition set_Sequence (v : option Sequence) (ct : ComplexType) : ComplexType :=
  mkComplexType (ComplexType_Name ct) (ComplexType_TargetNamespace ct)
    (ComplexType_Abstract ct) (ComplexType_Doc ct) (ComplexType_AllElements ct)
    (ComplexType_Attributes ct) v (ComplexType_Choice ct)
    (ComplexType_ComplexContent ct) (ComplexType_SimpleContent ct).
Definition set_Choice (v : option Choice) (ct : ComplexType) : ComplexType :=
  mkComplexType (ComplexType_Name ct) (ComplexType_TargetNamespace ct)
    (ComplexType_Abstract ct) (ComplexType_Doc ct) (ComplexType_AllElements ct)
    (ComplexType_Attributes ct) (ComplexType_Sequence ct) v
    (ComplexType_ComplexContent ct) (ComplexType_SimpleContent ct).
Definition set_AllElements (v : list Element) (ct : ComplexType) : ComplexType :=
  mkComplexType (ComplexType_Name ct) (ComplexType_TargetNamespace ct)
    (ComplexType_Abstract ct) (ComplexType_Doc ct) v
    (ComplexType_Attributes ct) (ComplexType_Sequence ct) (ComplexType_Choice ct)
    (ComplexType_ComplexContent ct) (ComplexType_SimpleContent ct).
Definition set_Attributes (v : list Attribute) (ct : ComplexType) : ComplexType :=
  mkComplexType (ComplexType_Name ct) (ComplexType_TargetNamespace ct)
    (ComplexType_Abstract ct) (ComplexType_Doc ct) (ComplexType_AllElements ct)
    v (ComplexType_Sequence ct) (ComplexType_Choice ct)
    (ComplexType_ComplexContent ct) (ComplexType_SimpleContent ct).
Definition set_ComplexContent (v : option ComplexContent) (ct : ComplexType) : ComplexType :=
  mkComplexType (ComplexType_Name ct) (ComplexType_TargetNamespace ct)
    (ComplexType_Abstract ct) (ComplexType_Doc ct) (ComplexType_AllElements ct)
    (ComplexType_Attributes ct) (ComplexType_Sequence ct) (ComplexType_Choice ct)
    v (ComplexType_SimpleContent ct).
Definition set_SimpleContent (v : option SimpleContent) (ct : ComplexType) : ComplexType :=
  mkComplexType (ComplexType_Name ct) (ComplexType_TargetNamespace ct)
    (ComplexType_Abstract ct) (ComplexType_Doc ct) (ComplexType_AllElements ct)
    (ComplexType_Attributes ct) (ComplexType_Sequence ct) (ComplexType_Choice ct)
    (ComplexType_ComplexContent ct) v.

(** The store of complex types: what the [*wsdl.ComplexType] pointers of the
    registry and of the sequences point to. *)
Abbreviation store := (gmap addr ComplexType).

(** [RedefinedStructFields], a [map[string]bool] used as a set of names. *)
Abbreviation RedefinedStructFields := (gset string).

Definition nil_deref : string :=
  "runtime error: invalid memory address or nil pointer dereference".

(** [*p] for a pointer into the store. *)
Definition deref (h : store) (a : addr) : outcome ComplexType :=
  match h !! a with
  | Some ct => Done ct
  | None => Fault nil_deref
  end.

Fixpoint foldlM {A B : Type} (f : A → B → outcome A) (a : A) (l : list B) : outcome A :=
  match l with
  | [] => Done a
  | b :: l' => a' ← f a b; foldlM f a' l'
  end.

(** ** The type flattener *)

Definition flatAttributeField (attrs : list Attribute) (attr : Attribute)
    (redefined : RedefinedStructFields) : list Attribute * RedefinedStructFields :=
  if decide (Attribute_Name attr ∈ redefined) then (attrs, redefined)
  else (attrs ++ [attr], {[Attribute_Name attr]} ∪ redefined).

Definition flatAttributeFields (attrs appendedAttrs : list Attribute)
    (redefined : RedefinedStructFields) : list Attribute * RedefinedStructFields :=
  foldl (λ acc attr, flatAttributeField acc.1 attr acc.2) (attrs, redefined) appendedAttrs.

Definition flatElementField (elements : list Element) (el : Element)
    (redefined : RedefinedStructFields) : list Element * RedefinedStructFields :=
  if decide (Element_Name el ∈ redefined) then (elements, redefined)
  else (elements ++ [el], {[Element_Name el]} ∪ redefined).

Definition flatElementFields (elements appendedElements : list Element)
    (redefined : RedefinedStructFields) : list Element * RedefinedStructFields :=
  foldl (λ acc el, flatElementField acc.1 el acc.2) (elements, redefined) appendedElements.

(** [ct.Sequence.F = append(ct.Sequence.F, xs...)]: a nil [ct.Sequence] is a
    nil dereference. *)
Definition upd_Sequence (f : Sequence → Sequence) (ct : ComplexType) : outcome ComplexType :=
  match ComplexType_Sequence ct with
  | Some s => Done (set_Sequence (Some (f s)) ct)
  | None => Fault nil_deref
  end.

Definition app_ComplexTypes (l : list addr) (s : Sequence) : Sequence :=
  mkSequence (Sequence_ComplexTypes s ++ l) (Sequence_Elements s) (Sequence_Any s) (Sequence_Choices s).
Definition app_Elements (l : list Element) (s : Sequence) : Sequence :=
  mkSequence (Sequence_ComplexTypes s) (Sequence_Elements s ++ l) (Sequence_Any s) (Sequence_Choices s).
Definition app_Any (l : list AnyElement) (s : Sequence) : Sequence :=
  mkSequence (Sequence_ComplexTypes s) (Sequence_Elements s) (Sequence_Any s ++ l) (Sequence_Choices s).

(** The [sequences] slice built by [flatComplexContent] from the extension. *)
Definition choice_as_sequence (c : Choice) : Sequence :=
  mkSequence (Choice_ComplexTypes c) (Choice_Elements c) (Choice_Any c) [].

Definition extension_sequences (ext : Extension) : list Sequence :=
  match Extension_Sequence ext with
  | Some s => s :: (choice_as_sequence <$> Sequence_Choices s)
  | None => []
  end ++
  match Extension_Choice ext with
  | Some c =>
      choice_as_sequence c ::
      match Choice_Sequence c with Some s => [s] | None => [] end
  | None => []
  end.

Definition merge_sequence (ct : ComplexType) (seq : Sequence) : outcome ComplexType :=
  ct ← (if decide (Sequence_ComplexTypes seq = []) then Done ct
        else upd_Sequence (app_ComplexTypes (Sequence_ComplexTypes seq)) ct);
  ct ← (if decide (Sequence_Elements seq = []) then Done ct
        else upd_Sequence (app_Elements (Sequence_Elements seq)) ct);
  if decide (Sequence_Any seq = []) then Done ct
  else upd_Sequence (app_Any (Sequence_Any seq)) ct.

Section Flatten.

(** [ge.ctypes]: the registry of complex types, by name. *)
Variable ctypes : gmap string addr.

Definition flatComplexContent (ct : ComplexType) : outcome ComplexType :=
  match ComplexType_ComplexContent ct with
  | None => Done ct
  | Some cc =>
      match ComplexContent_Extension cc with
      | None => Done ct
      | Some ext =>
          let ct :=
            set_ComplexContent
              (match ComplexContent_Restriction cc with
               | None => None
               | Some r => Some (mkComplexContent None (Some r))
               end) ct in
          ct ← (if decide (Extension_Base ext = "") then Done ct
                else match ctypes !! trimns (Extension_Base ext) with
                     | Some base => upd_Sequence (app_ComplexTypes [base]) ct
                     | None => Done ct
                     end);
          let ct :=
            set_Attributes
              (flatAttributeFields (ComplexType_Attributes ct)
                 (Extension_Attributes ext) ∅).1 ct in
          foldlM merge_sequence ct (extension_sequences ext)
      end
  end.

Definition flatSimpleContent (ct : ComplexType) : outcome ComplexType :=
  match ComplexType_SimpleContent ct with
  | None => Done ct
  | Some sc =>
      match SimpleContent_Extension sc with
      | None => Done ct
      | Some ext =>
          let ct :=
            set_SimpleContent
              (match SimpleContent_Restriction sc with
               | None => None
               | Some r => Some (mkSimpleContent None (Some r))
               end) ct in
          let ct :=
            set_Attributes
              (flatAttributeFields (ComplexType_Attributes ct)
                 (Extension_Attributes ext) ∅).1 ct in
          if decide (Extension_Base ext = "") then Done ct
          else match ctypes !! trimns (Extension_Base ext) with
               | Some baseComplex => upd_Sequence (app_ComplexTypes [baseComplex]) ct
               | None =>
                   let el := mkElement "Content" (trimns (Extension_Base ext)) "" 0 ""
                               false ",chardata" None in
                   Done (set_AllElements
                           (flatElementField (ComplexType_AllElements ct) el ∅).1 ct)
               end
      end
  end.

(** One round of the loop of [flatFields] over [ct.Sequence.ComplexTypes]:
    [v] is flattened in place, then its attributes and fields are appended
    to those of [ct], each with a fresh set of seen names. *)
Definition merge_fragment (flatTypeElements : store → addr → outcome store)
    (a : addr) (h : store) (v : addr) : outcome store :=
  h ← flatTypeElements h v;
  cv ← deref h v;
  ct ← deref h a;
  let ct := set_Attributes
              (flatAttributeFields (ComplexType_Attributes ct)
                 (ComplexType_Attributes cv) ∅).1 ct in
  let ct := set_AllElements
              (flatElementFields (ComplexType_AllElements ct)
                 (ComplexType_AllElements cv) ∅).1 ct in
  Done (<[a := ct]> h).

(** The elements of [ct.Sequence] and of its choices, then those of
    [ct.Choice] and of its sequence, all appended under one set
    [redefined] of seen names. *)
Definition own_sequence_elements (s : Sequence) : list Element :=
  Sequence_Elements s ++ mjoin (Choice_Elements <$> Sequence_Choices s).

Definition own_choice_elements (c : Choice) : list Element :=
  Choice_Elements c ++
  match Choice_Sequence c with
  | Some s => Sequence_Elements s
  | None => []
  end.

Definition flatFields (flatTypeElements : store → addr → outcome store)
    (h : store) (a : addr) : outcome store :=
  let redefined : RedefinedStructFields := ∅ in
  ct ← deref h a;
  '(h, redefined) ←
    match ComplexType_Sequence ct with
    | Some seq =>
        h ← foldlM (merge_fragment flatTypeElements a) h (Sequence_ComplexTypes seq);
        ct ← deref h a;
        match ComplexType_Sequence ct with
        | Some seq =>
            let r := flatElementFields (ComplexType_AllElements ct)
                       (own_sequence_elements seq) redefined in
            Done (<[a := set_AllElements r.1 ct]> h, r.2)
        | None => Fault nil_deref
        end
    | None => Done (h, redefined)
    end;
  ct ← deref h a;
  let ct := set_Sequence None ct in
  let ct :=
    match ComplexType_Choice ct with
    | Some c =>
        set_AllElements
          (flatElementFields (ComplexType_AllElements ct)
             (own_choice_elements c) redefined).1 ct
    | None => ct
    end in
  Done (<[a := set_Choice None ct]> h).

Fixpoint flatTypeElements (fuel : nat) (h : store) (a : addr) : outcome store :=
  match fuel with
  | O => Timeout
  | S fuel =>
      ct ← deref h a;
      let ct := match ComplexType_Sequence ct with
                | None => set_Sequence (Some emptySequence) ct
                | Some _ => ct
                end in
      ct ← flatComplexContent ct;
      ct ← flatSimpleContent ct;
      flatFields (flatTypeElements fuel) (<[a := ct]> h) a
  end.

End Flatten.

(** A complex type is flat when its shape markers are cleared. *)
Definition cc_cleared (ct : ComplexType) : Prop :=
  match ComplexType_ComplexContent ct with
  | None => True
  | Some cc => ComplexContent_Extension cc = None
  end.
Definition sc_cleared (ct : ComplexType) : Prop :=
  match ComplexType_SimpleContent ct with
  | None => True
  | Some sc => SimpleContent_Extension sc = None
  end.
Definition flat (ct : ComplexType) : Prop :=
  ComplexType_Sequence ct = None ∧ ComplexType_Choice ct = None ∧
  cc_cleared ct ∧ sc_cleared ct.

(** Flattening never restores an extension marker. *)
Definition cleared_le (h h' : store) : Prop :=
  ∀ x ct, h !! x = Some ct →
    ∃ ct', h' !! x = Some ct' ∧
           (cc_cleared ct → cc_cleared ct') ∧ (sc_cleared ct → sc_cleared ct').

(** The fields that only one step of the flattener touches. *)
Definition same_content (ct ct' : ComplexType) : Prop :=
  ComplexType_ComplexContent ct' = ComplexType_ComplexContent ct ∧
  ComplexType_SimpleContent ct' = ComplexType_SimpleContent ct.

(** The first three steps of [flatTypeElements]: an empty sequence is put in
    place of a nil one, then the extensions are flattened. *)
Definition prepare (ctypes : gmap string addr) (ct : ComplexType) : outcome ComplexType :=
  let ct := match ComplexType_Sequence ct with
            | None => set_Sequence (Some emptySequence) ct
            | Some _ => ct
            end in
  ct ← flatComplexContent ctypes ct;
  flatSimpleContent ctypes ct.

(** The fields a fragment contributes, in the words of the specification: a
    field is dropped when an earlier field of the same fragment has its
    name.  [before] lists the names of the fields of the fragment that come
    before [l]. *)
Fixpoint fragment_fields (before : list string) (l : list Element) : list Element :=
  match l with
  | [] => []
  | el :: l' =>
      (if decide (Element_Name el ∈ before) then [] else [el]) ++
      fragment_fields (before ++ [Element_Name el]) l'
  end.

(** The fields of the complex type at [v]. *)
Definition fields_at (h : store) (v : addr) : list Element :=
  match h !! v with
  | Some cv => ComplexType_AllElements cv
  | None => []
  end.

(** The fields a complex type declares itself, once its extensions are
    merged into its sequence. *)
Definition own_fields (ct : ComplexType) : list Element :=
  match ComplexType_Sequence ct with
  | Some s => own_sequence_elements s
  | None => []
  end ++
  match ComplexType_Choice ct with
  | Some c => own_choice_elements c
  | None => []
  end.

Definition queued_fragments (ct : ComplexType) : list addr :=
  match ComplexType_Sequence ct with
  | Some s => Sequence_ComplexTypes s
  | None => []
  end.

Definition named (n : string) (l : list Element) : list Element :=
  filter (λ el, Element_Name el = n) l.






(** *** A small hierarchy to run the flattener on

    [Base1] and [Base2] both declare a field [id]; [Base1] declares [id]
    twice.  [Derived] extends [Base1] and lists [Base2] in its own sequence;
    it declares [id] and [name]. *)
Module FlattenExample.

Definition el (name type : string) : Element :=
  mkElement name type "" 1 "" false "" None.

Definition plain (name : string) (els : list Element) : ComplexType :=
  mkComplexType name "" false "" [] []
    (Some (mkSequence [] els [] [])) None None None.

Definition Base1 := plain "Base1" [el "id" "xsd:int"; el "id" "xsd:string"; el "a" "xsd:string"].
Definition Base2 := plain "Base2" [el "id" "xsd:long"; el "b" "xsd:string"].
Definition Derived : ComplexType :=
  mkComplexType "Derived" "" false "" [] []
    (Some (mkSequence [1%nat] [] [] [])) None
    (Some (mkComplexContent
             (Some (mkExtension "tns:Base1"
                      (Some (mkSequence [] [el "id" "xsd:int"; el "name" "xsd:string"] [] []))
                      None []))
             None))
    None.

Definition h0 : store := <[2%nat := Derived]> (<[1%nat := Base2]> (<[0%nat := Base1]> ∅)).
Definition ctypes0 : gmap string addr :=
  <["Derived" := 2%nat]> (<["Base2" := 1%nat]> (<["Base1" := 0%nat]> ∅)).

Definition h1 : store :=
  match flatTypeElements ctypes0 3 h0 2%nat with
  | Done h => h
  | _ => ∅
  end.

(** The store once the two base types are flattened. *)
Definition hb : store :=
  match flatTypeElements ctypes0 2 h0 0%nat ≫= λ h, flatTypeElements ctypes0 2 h 1%nat with
  | Done h => h
  | _ => ∅
  end.

Definition Derived2 : ComplexType :=
  match prepare ctypes0 Derived with
  | Done ct => ct
  | _ => Derived
  end.


Definition field_names (h : store) (a : addr) : list string :=
  match h !! a with
  | Some ct => Element_Name <$> ComplexType_AllElements ct
  | None => []
  end.

End FlattenExample.

(** ** The encoder *)

(** [goEncoder].  The writer [w], the HTTP client and the credentials are
    outside the model; [ge_cstore] is the memory the pointers of [ge_ctypes]
    and of the sequences point to.  A [map[string]bool] that only ever holds
    [true] is a set. *)
Record goEncoder := mkGoEncoder {
  ge_packageName : option string;
  ge_goClientType : string;
  ge_requestVersion : string;
  ge_generateOnlyInterface : bool;
  ge_generateOnlyTypes : bool;
  ge_noSimpleTypeIndirect : bool;
  ge_stypes : gmap string SimpleType;
  ge_ctypes : gmap string addr;
  ge_cstore : store;
  ge_typeAliases : gmap string string;
  ge_wroteOpStruct : gset string;
  ge_elements : gmap string Element;
  ge_funcs : gmap string Operation;
  ge_funcnames : list string;
  ge_messages : gmap string Message;
  ge_soapOps : gmap string BindingOperation;
  ge_needsDateType : bool;
  ge_needsTimeType : bool;
  ge_needsDateTimeType : bool;
  ge_needsDurationType : bool;
  ge_needsTag : gmap string string;
  ge_needsStdPkg : gset string;
  ge_needsExtPkg : gset string;
  ge_importedSchemas : gset string;
  ge_localNamespace : string }.

(** [NewEncoder]. *)
Definition NewEncoder : goEncoder :=
  mkGoEncoder None "" "" false false false ∅ ∅ ∅ ∅ ∅ ∅ ∅ [] ∅ ∅
    false false false false ∅ ∅ ∅ ∅ "".

Definition set_needsDateType (v : bool) (ge : goEncoder) : goEncoder :=
  let 'mkGoEncoder a1 a2 a3 a4 a5 a6 a7 a8 a9 a10 a11 a12 a13 a14 a15 a16
        a17 a18 a19 a20 a21 a22 a23 a24 a25 := ge in
  mkGoEncoder a1 a2 a3 a4 a5 a6 a7 a8 a9 a10 a11 a12 a13 a14 a15 a16
    v a18 a19 a20 a21 a22 a23 a24 a25.
Definition set_needsTimeType (v : bool) (ge : goEncoder) : goEncoder :=
  let 'mkGoEncoder a1 a2 a3 a4 a5 a6 a7 a8 a9 a10 a11 a12 a13 a14 a15 a16
        a17 a18 a19 a20 a21 a22 a23 a24 a25 := ge in
  mkGoEncoder a1 a2 a3 a4 a5 a6 a7 a8 a9 a10 a11 a12 a13 a14 a15 a16
    a17 v a19 a20 a21 a22 a23 a24 a25.
Definition set_needsDateTimeType (v : bool) (ge : goEncoder) : goEncoder :=
  let 'mkGoEncoder a1 a2 a3 a4 a5 a6 a7 a8 a9 a10 a11 a12 a13 a14 a15 a16
        a17 a18 a19 a20 a21 a22 a23 a24 a25 := ge in
  mkGoEncoder a1 a2 a3 a4 a5 a6 a7 a8 a9 a10 a11 a12 a13 a14 a15 a16
    a17 a18 v a20 a21 a22 a23 a24 a25.
Definition set_needsDurationType (v : bool) (ge : goEncoder) : goEncoder :=
  let 'mkGoEncoder a1 a2 a3 a4 a5 a6 a7 a8 a9 a10 a11 a12 a13 a14 a15 a16
        a17 a18 a19 a20 a21 a22 a23 a24 a25 := ge in
  mkGoEncoder a1 a2 a3 a4 a5 a6 a7 a8 a9 a10 a11 a12 a13 a14 a15 a16
    a17 a18 a19 v a21 a22 a23 a24 a25.
Definition set_needsStdPkg (v : gset string) (ge : goEncoder) : goEncoder :=
  let 'mkGoEncoder a1 a2 a3 a4 a5 a6 a7 a8 a9 a10 a11 a12 a13 a14 a15 a16
        a17 a18 a19 a20 a21 a22 a23 a24 a25 := ge in
  mkGoEncoder a1 a2 a3 a4 a5 a6 a7 a8 a9 a10 a11 a12 a13 a14 a15 a16
    a17 a18 a19 a20 a21 v a23 a24 a25.
Definition set_wroteOpStruct (v : gset string) (ge : goEncoder) : goEncoder :=
  let 'mkGoEncoder a1 a2 a3 a4 a5 a6 a7 a8 a9 a10 a11 a12 a13 a14 a15 a16
        a17 a18 a19 a20 a21 a22 a23 a24 a25 := ge in
  mkGoEncoder a1 a2 a3 a4 a5 a6 a7 a8 a9 a10 v a12 a13 a14 a15 a16
    a17 a18 a19 a20 a21 a22 a23 a24 a25.
Definition set_cstore (v : store) (ge : goEncoder) : goEncoder :=
  let 'mkGoEncoder a1 a2 a3 a4 a5 a6 a7 a8 a9 a10 a11 a12 a13 a14 a15 a16
        a17 a18 a19 a20 a21 a22 a23 a24 a25 := ge in
  mkGoEncoder a1 a2 a3 a4 a5 a6 a7 a8 v a10 a11 a12 a13 a14 a15 a16
    a17 a18 a19 a20 a21 a22 a23 a24 a25.
Definition set_registry (st : gmap string SimpleType) (ct : gmap string addr)
    (h : store) (ge : goEncoder) : goEncoder :=
  let 'mkGoEncoder a1 a2 a3 a4 a5 a6 a7 a8 a9 a10 a11 a12 a13 a14 a15 a16
        a17 a18 a19 a20 a21 a22 a23 a24 a25 := ge in
  mkGoEncoder a1 a2 a3 a4 a5 a6 st ct h a10 a11 a12 a13 a14 a15 a16
    a17 a18 a19 a20 a21 a22 a23 a24 a25.
Definition set_operations (fs : gmap string Operation) (names : list string)
    (ms : gmap string Message) (ops : gmap string BindingOperation)
    (ge : goEncoder) : goEncoder :=
  let 'mkGoEncoder a1 a2 a3 a4 a5 a6 a7 a8 a9 a10 a11 a12 a13 a14 a15 a16
        a17 a18 a19 a20 a21 a22 a23 a24 a25 := ge in
  mkGoEncoder a1 a2 a3 a4 a5 a6 a7 a8 a9 a10 a11 a12 fs names ms ops
    a17 a18 a19 a20 a21 a22 a23 a24 a25.
Definition set_needsTag (v : gmap string string) (ge : goEncoder) : goEncoder :=
  let 'mkGoEncoder a1 a2 a3 a4 a5 a6 a7 a8 a9 a10 a11 a12 a13 a14 a15 a16
        a17 a18 a19 a20 a21 a22 a23 a24 a25 := ge in
  mkGoEncoder a1 a2 a3 a4 a5 a6 a7 a8 a9 a10 a11 a12 a13 a14 a15 a16
    a17 a18 a19 a20 v a22 a23 a24 a25.
Definition set_importedSchemas (v : gset string) (ge : goEncoder) : goEncoder :=
  let 'mkGoEncoder a1 a2 a3 a4 a5 a6 a7 a8 a9 a10 a11 a12 a13 a14 a15 a16
        a17 a18 a19 a20 a21 a22 a23 a24 a25 := ge in
  mkGoEncoder a1 a2 a3 a4 a5 a6 a7 a8 a9 a10 a11 a12 a13 a14 a15 a16
    a17 a18 a19 a20 a21 a22 a23 v a25.
Definition set_packageName (v : option string) (ge : goEncoder) : goEncoder :=
  let 'mkGoEncoder a1 a2 a3 a4 a5 a6 a7 a8 a9 a10 a11 a12 a13 a14 a15 a16
        a17 a18 a19 a20 a21 a22 a23 a24 a25 := ge in
  mkGoEncoder v a2 a3 a4 a5 a6 a7 a8 a9 a10 a11 a12 a13 a14 a15 a16
    a17 a18 a19 a20 a21 a22 a23 a24 a25.

Definition str_in (s : string) (l : list string) : bool := bool_decide (s ∈ l).

(** [len(l) == 0] *)
Definition nilb {A : Type} (l : list A) : bool :=
  match l with
  | [] => true
  | _ :: _ => false
  end.

(** [wsdl2goType]: the Go type for a WSDL type; it records which of the
    supporting date and time types are needed. *)
Definition wsdl2goType (ge : goEncoder) (t : string) : goEncoder * string :=
  let v := trimns t in
  if decide (is_Some (ge_stypes ge !! v)) then (ge, goSymbol v)
  else
    let lv := ToLower v in
    if str_in lv ["byte"; "unsignedbyte"] then (ge, "byte")
    else if str_in lv ["int"] then (ge, "int")
    else if str_in lv ["integer"] then (ge, "int64")
    else if str_in lv ["long"] then (ge, "int64")
    else if str_in lv ["float"; "double"; "decimal"] then (ge, "float64")
    else if str_in lv ["boolean"] then (ge, "bool")
    else if str_in lv ["hexbinary"; "base64binary"] then (ge, "[]byte")
    else if str_in lv ["string"; "anyuri"; "token"; "nmtoken"; "qname"; "language"; "id"]
      then (ge, "string")
    else if str_in lv ["date"] then (set_needsDateType true ge, "Date")
    else if str_in lv ["time"] then (set_needsTimeType true ge, "Time")
    else if str_in lv ["nonnegativeinteger"] then (ge, "uint")
    else if str_in lv ["positiveinteger"] then (ge, "uint64")
    else if str_in lv ["normalizedstring"] then (ge, "string")
    else if str_in lv ["unsignedint"] then (ge, "uint")
    else if str_in lv ["datetime"] then (set_needsDateTimeType true ge, "DateTime")
    else if str_in lv ["duration"] then (set_needsDurationType true ge, "Duration")
    else if str_in lv ["anysequence"; "anytype"; "anysimpletype"] then (ge, "interface{}")
    else if str_in lv ["idref"] then (ge, "string")
    else if str_in lv ["idrefs"] then (ge, "string")
    else
      let v := goSymbol v in
      match ge_ctypes ge !! v with
      | None => (ge, "string")
      | Some _ => (ge, "*" +:+ v)
      end.

(** [wsdl2goDefault]: the expression returned for a value of Go type [t]. *)
Definition wsdl2goDefault (t : string) : string :=
  let v := trimns t in
  let v := match v with
           | String "*" v' => v'
           | _ => v
           end in
  if str_in v ["error"] then "errors.New(" +:+ dq +:+ "not implemented" +:+ dq +:+ ")"
  else if str_in v ["bool"] then "false"
  else if str_in v ["uint"; "int"; "int64"; "float64"] then "0"
  else if str_in v ["string"] then dq +:+ dq
  else if str_in v ["[]byte"; "interface{}"] then "nil"
  else "&" +:+ v +:+ "{}".

(** The struct tag [`xml:"tag" json:"tag" yaml:"tag"`] and the line feed. *)
Definition field_tags (typ tag : string) : string :=
  typ +:+ " " +:+ bq +:+ "xml:" +:+ dq +:+ tag +:+ dq +:+
  " json:" +:+ dq +:+ tag +:+ dq +:+ " yaml:" +:+ dq +:+ tag +:+ dq +:+ bq +:+ nl.

Section Emit.

(** [refElement.Copy().Enrich(el)] of package [wsdl]: the copy of the
    referenced element, overridden by the referring one. *)
Variable CopyEnrich : Element → Element → Element.

(** [genElementField]; the result is the encoder, the set [redefined] and
    the text written. *)
Definition genElementField (ge : goEncoder) (el : Element)
    (redefined : RedefinedStructFields)
    : outcome (goEncoder * RedefinedStructFields * string) :=
  if decide (Element_Name el ∈ redefined) then Done (ge, redefined, "")
  else
    let redefined := {[Element_Name el]} ∪ redefined in
    let resolved :=
      if decide (Element_Ref el = "") then Some el
      else match ge_elements ge !! trimns (Element_Ref el) with
           | None => None
           | Some refElement => Some (CopyEnrich refElement el)
           end in
    match resolved with
    | None => Done (ge, redefined, "")
    | Some el =>
        '(el, slicetype) ←
          (match Element_ComplexType el with
           | Some p =>
               if decide (Element_Type el = "") then
                 ct ← deref (ge_cstore ge) p;
                 let seq :=
                   match ComplexType_Sequence ct, ComplexType_Choice ct with
                   | Some s, _ => Some s
                   | None, Some c => Some (choice_as_sequence c)
                   | None, None => None
                   end in
                 match seq with
                 | Some seq =>
                     match Sequence_Elements seq, Sequence_Any seq with
                     | [seqel], _ =>
                         Done (mkElement (Element_Name el) (Element_Type seqel)
                                 (Element_Ref seqel) (Element_Min seqel)
                                 (Element_Max seqel) (Element_Nillable seqel)
                                 (Element_Tag seqel) (Element_ComplexType seqel),
                               Element_Name seqel)
                     | _, [any] =>
                         Done (mkElement (Element_Name el) "anysequence" ""
                                 (AnyElement_Min any) (AnyElement_Max any)
                                 false "" None,
                               Element_Name el)
                     | _, _ => Done (el, "")
                     end
                 | None => Done (el, "")
                 end
               else Done (el, "")
           | None => Done (el, "")
           end);
        let et := if decide (Element_Type el = "") then "string" else Element_Type el in
        let tag := Element_Name el in
        let out := goSymbol (Element_Name el) +:+ " " in
        let '(out, tag) :=
          if decide (Element_Max el ≠ "" ∧ Element_Max el ≠ "1") then
            (out +:+ "[]",
             if decide (slicetype = "") then tag
             else Element_Name el +:+ ">" +:+ slicetype)
          else (out, tag) in
        let '(ge, typ) := wsdl2goType ge et in
        let '(tag, typ) :=
          if (Element_Nillable el || bool_decide (Element_Min el = 0))%bool then
            (tag +:+ ",omitempty",
             if (negb (ge_noSimpleTypeIndirect ge) && negb (HasPrefix typ "*"))%bool
             then "*" +:+ typ else typ)
          else (tag, typ) in
        let tag := if decide (Element_Tag el = "") then tag else Element_Tag el in
        Done (ge, redefined, out +:+ field_tags typ tag)
    end.

(** [genAttributeField].  The attribute is a value here: the name and the
    type the source stores back into the attribute are those of the copy
    that is written. *)
Definition genAttributeField (ge : goEncoder) (attr : Attribute)
    (redefined : RedefinedStructFields)
    : goEncoder * RedefinedStructFields * string :=
  if decide (Attribute_Name attr ∈ redefined) then (ge, redefined, "")
  else
    let redefined := {[Attribute_Name attr]} ∪ redefined in
    let name :=
      if decide (Attribute_Name attr = "" ∧ Attribute_Ref attr ≠ "")
      then trimns (Attribute_Ref attr) else Attribute_Name attr in
    let type := if decide (Attribute_Type attr = "") then "string" else Attribute_Type attr in
    let tagName := if decide (Attribute_TagName attr = "") then name else Attribute_TagName attr in
    let tag := tagName +:+ ",attr" in
    let out := goSymbol name +:+ " " in
    let '(ge, typ) := wsdl2goType ge type in
    let tag :=
      if (Attribute_Nillable attr || bool_decide (Attribute_Min attr = 0))%bool
      then tag +:+ ",omitempty" else tag in
    (ge, redefined, out +:+ field_tags typ tag).

Definition genElementFields (ge : goEncoder) (els : list Element)
    (redefined : RedefinedStructFields) (out : string)
    : outcome (goEncoder * RedefinedStructFields * string) :=
  foldlM (λ '(ge, redefined, out) el,
            '(ge, redefined, o) ← genElementField ge el redefined;
            Done (ge, redefined, out +:+ o))
         (ge, redefined, out) els.

Definition versionAttribute : Attribute :=
  mkAttribute "Version" "xsd:string" "" "" "" false 0.

(** [genStructFields] *)
Definition genStructFields (ge : goEncoder) (ct : ComplexType)
    (redefined : RedefinedStructFields)
    : outcome (goEncoder * RedefinedStructFields * string) :=
  '(ge, redefined, out) ← genElementFields ge (ComplexType_AllElements ct) redefined "";
  '(ge, redefined, out) ←
    match ComplexType_Sequence ct with
    | Some s => genElementFields ge (own_sequence_elements s) redefined out
    | None => Done (ge, redefined, out)
    end;
  '(ge, redefined, out) ←
    match ComplexType_Choice ct with
    | Some c => genElementFields ge (own_choice_elements c) redefined out
    | None => Done (ge, redefined, out)
    end;
  let '(ge, redefined, out) :=
    foldl (λ '(ge, redefined, out) attr,
             let '(ge, redefined, o) := genAttributeField ge attr redefined in
             (ge, redefined, out +:+ o))
          (ge, redefined, out) (ComplexType_Attributes ct) in
  if decide (ge_requestVersion ge = "") then Done (ge, redefined, out)
  else
    let '(ge, redefined, o) := genAttributeField ge versionAttribute redefined in
    Done (ge, redefined, out +:+ o).

(** [genXMLName] *)
Definition genXMLName (ge : goEncoder) (targetNamespace name : string) : string :=
  match ge_needsTag ge !! name with
  | Some elName =>
      if decide (ge_localNamespace ge = "") then
        "XMLName xml.Name " +:+ bq +:+ "xml:" +:+ dq +:+ targetNamespace +:+ " " +:+
        elName +:+ dq +:+ " json:" +:+ dq +:+ "-" +:+ dq +:+ " yaml:" +:+ dq +:+ "-" +:+
        dq +:+ bq +:+ nl
      else
        "XMLName xml.Name " +:+ bq +:+ "xml:" +:+ dq +:+ ge_localNamespace ge +:+ ":" +:+
        elName +:+ dq +:+ " json:" +:+ dq +:+ "-" +:+ dq +:+ " yaml:" +:+ dq +:+ "-" +:+
        dq +:+ bq +:+ nl
  | None => ""
  end.

(** The counter [c] of [genGoStruct]: one for an empty field list, one for
    no extension of complex content, one for no or empty sequence and
    choice. *)
Definition sequence_is_empty (s : Sequence) : bool :=
  (nilb (Sequence_ComplexTypes s) && nilb (Sequence_Elements s) &&
   nilb (Sequence_Choices s))%bool.
Definition choice_is_empty (c : Choice) : bool :=
  (nilb (Choice_ComplexTypes c) && nilb (Choice_Elements c) &&
   match Choice_Sequence c with
   | None => true
   | Some cs => nilb (Sequence_Elements cs)
   end)%bool.
Definition emptiness_count (ct : ComplexType) : nat :=
  (if nilb (ComplexType_AllElements ct) then 1 else 0) +
  (match ComplexType_ComplexContent ct with
   | None => 1
   | Some cc => match ComplexContent_Extension cc with None => 1 | Some _ => 0 end
   end) +
  (match ComplexType_Sequence ct, ComplexType_Choice ct with
   | None, None => 1
   | Some s, None => if sequence_is_empty s then 1 else 0
   | Some s, Some c => if (sequence_is_empty s || choice_is_empty c)%bool then 1 else 0
   | None, Some c => if choice_is_empty c then 1 else 0
   end).

(** The two tests of [genGoStruct] for wildcard content. *)
Definition sequence_is_wildcard (ct : ComplexType) : bool :=
  match ComplexType_Sequence ct with
  | Some s => (negb (nilb (Sequence_Any s)) && nilb (Sequence_Elements s))%bool
  | None => false
  end.
Definition choice_is_wildcard (ct : ComplexType) : bool :=
  match ComplexType_Choice ct with
  | Some c => (negb (nilb (Choice_Any c)) && nilb (Choice_Elements c))%bool
  | None => false
  end.

Definition has_namespace_fields (ct : ComplexType) : bool :=
  ((match ComplexType_ComplexContent ct with
    | Some cc => bool_decide (is_Some (ComplexContent_Extension cc))
    | None => false
    end) ||
   (match ComplexType_Choice ct with
    | Some ch => bool_decide (is_Some (Choice_Sequence ch))
    | None => false
    end) ||
   bool_decide (is_Some (ComplexType_Sequence ct)))%bool.

(** [genGoStruct]; [targetNamespace] is [d.TargetNamespace]. *)
Definition genGoStruct (ge : goEncoder) (targetNamespace : string) (ct : ComplexType)
    : outcome (goEncoder * string * error) :=
  let c := emptiness_count ct in
  let name := goSymbol (ComplexType_Name ct) in
  let out := writeComments name (ComplexType_Doc ct) in
  if ComplexType_Abstract ct then
    Done (ge, out +:+ "type " +:+ name +:+ " interface{}" +:+ nl +:+ nl, None)
  else if sequence_is_wildcard ct then
    Done (ge, out +:+ "type " +:+ name +:+ " []interface{}" +:+ nl +:+ nl, None)
  else if choice_is_wildcard ct then
    Done (ge, out +:+ "type " +:+ name +:+ " []interface{}" +:+ nl +:+ nl, None)
  else
    match
      match ComplexType_ComplexContent ct with
      | Some cc =>
          match ComplexContent_Restriction cc with
          | Some restr =>
              match Restriction_Attributes restr with
              | [attr] =>
                  if decide (Attribute_ArrayType attr = "") then None
                  else Some (Attribute_ArrayType attr)
              | _ => None
              end
          | None => None
          end
      | None => None
      end
    with
    | Some arrayType =>
        let typ := default "" (head (Split (trimns arrayType) "["%char)) in
        let '(ge, gotyp) := wsdl2goType ge typ in
        Done (ge,
              out +:+ "type " +:+ name +:+ " struct {" +:+ nl +:+
              "Items []" +:+ gotyp +:+ " " +:+ bq +:+
              "xml:" +:+ dq +:+ "item,omitempty" +:+ dq +:+
              " json:" +:+ dq +:+ "item,omitempty" +:+ dq +:+
              " yaml:" +:+ dq +:+ "item,omitempty" +:+ dq +:+ bq +:+ nl +:+
              "}" +:+ nl +:+ nl,
              None)
    | None =>
        if (Nat.ltb 2 c && nilb (ComplexType_Attributes ct) &&
            bool_decide (ComplexType_SimpleContent ct = None))%bool then
          Done (ge,
                out +:+ "type " +:+ name +:+ " struct {" +:+ nl +:+
                genXMLName ge targetNamespace name +:+ "}" +:+ nl +:+ nl,
                None)
        else
          let out := out +:+ "type " +:+ name +:+ " struct {" +:+ nl +:+
                     genXMLName ge targetNamespace name in
          '(ge, _, fields) ← genStructFields ge ct ∅;
          let out := out +:+ fields in
          let out :=
            if has_namespace_fields ct then
              out +:+ "TypeNamespace string " +:+ bq +:+ "xml:" +:+ dq +:+
              "xmlns,attr,omitempty" +:+ dq +:+ bq +:+ nl +:+ nl +:+
              "OverrideTypeNamespace *string " +:+ bq +:+ "xml:" +:+ dq +:+ "-" +:+ dq +:+
              bq +:+ nl
            else out in
          Done (ge, out +:+ "}" +:+ nl +:+ nl, None)
    end.

(** [genGoXMLTypeFunction] *)
Definition genGoXMLTypeFunction (ct : ComplexType) : string :=
  match ComplexType_ComplexContent ct with
  | Some cc =>
      match ComplexContent_Extension cc with
      | Some ext =>
          if (bool_decide (ComplexType_TargetNamespace ct = "") ||
              bool_decide (Extension_Base ext = "") || ComplexType_Abstract ct)%bool
          then ""
          else
            writeComments "SetXMLType" "" +:+
            "func (t *" +:+ goSymbol (ComplexType_Name ct) +:+ ") SetXMLType() {" +:+ nl +:+
            "if t.OverrideTypeNamespace != nil {" +:+ nl +:+
            "    t.TypeNamespace = *t.OverrideTypeNamespace" +:+ nl +:+
            "} else {" +:+ nl +:+
            "    t.TypeNamespace = " +:+ dq +:+ ComplexType_TargetNamespace ct +:+ dq +:+ nl +:+
            "}" +:+ nl +:+ "}" +:+ nl +:+ nl
      | None => ""
      end
  | None => ""
  end.

(** The template [validatorT], executed. *)
Definition validatorT (TypeName Type_ : string) (Args : list string) : string :=
  nl +:+ "// Validate validates " +:+ TypeName +:+ "." +:+ nl +:+
  "func (v " +:+ TypeName +:+ ") Validate() bool {" +:+ nl +:+
  tab +:+ "for _, vv := range []" +:+ Type_ +:+ " {" +:+ nl +:+
  tab +:+ tab +:+ concat_all ((λ a, a +:+ "," +:+ nl) <$> Args) +:+ nl +:+
  tab +:+ "}{" +:+ nl +:+
  tab +:+ tab +:+ "if reflect.DeepEqual(v, vv) {" +:+ nl +:+
  tab +:+ tab +:+ tab +:+ "return true" +:+ nl +:+
  tab +:+ tab +:+ "}" +:+ nl +:+
  tab +:+ "}" +:+ nl +:+
  tab +:+ "return false" +:+ nl +:+
  "}" +:+ nl.

(** [genValidator] *)
Definition genValidator (ge : goEncoder) (typeName : string) (r : Restriction)
    : goEncoder * string :=
  match Restriction_Enum r with
  | [] => (ge, "")
  | _ =>
      let '(ge, t) := wsdl2goType ge (Restriction_Base r) in
      let args :=
        (λ v, if decide (t = "string") then Quote (EnumValue_Value v)
              else EnumValue_Value v) <$> Restriction_Enum r in
      (set_needsStdPkg ({[ "reflect" ]} ∪ ge_needsStdPkg ge) ge,
       validatorT typeName t args)
  end.

(** [sort.Strings] *)
Definition sort_strings (l : list string) : list string := merge_sort String.le l.

(** The keys of a map in the order [range] yields them are some
    permutation of its keys; the three [sorted...] functions sort them, so
    the order they are yielded in does not matter (see
    [sort_strings_order]) and the model takes the keys as [elements]
    lists them. *)
Definition sortedSimpleTypes (ge : goEncoder) : list string :=
  sort_strings (elements (dom (ge_stypes ge))).
Definition sortedComplexTypes (ge : goEncoder) : list string :=
  sort_strings (elements (dom (ge_ctypes ge))).
Definition sortedOperations (ge : goEncoder) : list string :=
  sort_strings (elements (dom (ge_soapOps ge))).

(** The loop of [writeGoTypes] over the member types of a union: the Go
    types of the members and the set of their restriction bases.  A member
    that is not a key of [ge.stypes] is a panic. *)
Definition union_panic (stname t : string) : string :=
  "Union for '" +:+ stname +:+ "': simple type '" +:+ t +:+ "' must be in ge.stypes".

Definition union_member (stname : string)
    (acc : goEncoder * list string * gset string) (t : string)
    : outcome (goEncoder * list string * gset string) :=
  let '(ge, ntypes, baseTypes) := acc in
  let t := TrimSpace t in
  if decide (t = "") then Done acc
  else
    let '(ge, gt) := wsdl2goType ge t in
    let ntypes := ntypes ++ [gt] in
    match ge_stypes ge !! t with
    | Some st =>
        match SimpleType_Restriction st with
        | None => Done (ge, ntypes, baseTypes)
        | Some r => Done (ge, ntypes, {[Restriction_Base r]} ∪ baseTypes)
        end
    | None => Fault (union_panic stname t)
    end.

Definition union_anonymous (acc : list string * gset string) (t : option Restriction)
    : list string * gset string :=
  let '(ntypes, baseTypes) := acc in
  let ntypes := ntypes ++ ["ANONIMOUS"] in
  match t with
  | None => (ntypes, baseTypes)
  | Some r => (ntypes, {[Restriction_Base r]} ∪ baseTypes)
  end.

(** One round of the loop of [writeGoTypes] over the simple types. *)
Definition writeSimpleType (acc : goEncoder * string) (name : string)
    : outcome (goEncoder * string) :=
  let '(ge, b) := acc in
  match ge_stypes ge !! name with
  | None => Fault nil_deref
  | Some st =>
      let stname := goSymbol (SimpleType_Name st) in
      match SimpleType_Restriction st, SimpleType_Union st with
      | Some r, _ =>
          let b := b +:+ writeComments stname "" in
          let '(ge, base) := wsdl2goType ge (Restriction_Base r) in
          let b := b +:+ "type " +:+ stname +:+ " " +:+ base +:+ nl +:+ nl in
          let '(ge, v) := genValidator ge stname r in
          Done (ge, b +:+ v)
      | None, Some u =>
          '(ge, ntypes, baseTypes) ←
            foldlM (union_member stname) (ge, [], ∅) (Split (Union_MemberTypes u) " "%char);
          let '(ntypes, baseTypes) :=
            foldl union_anonymous (ntypes, baseTypes) (Union_SimpleTypes u) in
          let doc := stname +:+ " is a union of: " +:+ Join ntypes ", " in
          let b := b +:+ writeComments stname doc in
          match elements baseTypes with
          | [baseType] =>
              let '(ge, base) := wsdl2goType ge baseType in
              Done (ge, b +:+ "type " +:+ stname +:+ " " +:+ base +:+ nl +:+ nl)
          | _ => Done (ge, b +:+ "type " +:+ stname +:+ " interface{}" +:+ nl +:+ nl)
          end
      | None, None => Done (ge, b)
      end
  end.

(** The registry holds under [name] a union, not a restriction, and [t] is
    one of the names its [memberTypes] lists, not blank, that is no key of
    the registry of simple types. *)
Definition missing_member (ge : goEncoder) (name : string) (st : SimpleType) (t : string)
    : Prop :=
  ge_stypes ge !! name = Some st ∧
  SimpleType_Restriction st = None ∧
  (∃ u, SimpleType_Union st = Some u ∧ t ∈ Split (Union_MemberTypes u) " "%char) ∧
  TrimSpace t ≠ "" ∧
  ge_stypes ge !! TrimSpace t = None.

(** [genOpStructMessage] *)
Definition sanitizedOperationsType (opName : string) : string :=
  "Operation" +:+ goSymbol opName.

Definition genOpStructMessage (ge : goEncoder) (targetNamespace name : string)
    (message : Message) : outcome (goEncoder * string) :=
  let sanitizedMessageName := sanitizedOperationsType (Message_Name message) in
  if decide (sanitizedMessageName ∈ ge_wroteOpStruct ge) then Done (ge, "")
  else
    let ge := set_wroteOpStruct ({[sanitizedMessageName]} ∪ ge_wroteOpStruct ge) ge in
    let out :=
      writeComments sanitizedMessageName ("Operation wrapper for " +:+ name +:+ ".") +:+
      writeComments sanitizedMessageName "" +:+
      "type " +:+ sanitizedMessageName +:+ " struct {" +:+ nl +:+
      match ge_needsTag ge !! sanitizedMessageName with
      | Some elName =>
          "XMLName xml.Name " +:+ bq +:+ "xml:" +:+ dq +:+ targetNamespace +:+ " " +:+
          elName +:+ dq +:+ " json:" +:+ dq +:+ "-" +:+ dq +:+ " yaml:" +:+ dq +:+ "-" +:+
          dq +:+ bq +:+ nl
      | None => ""
      end in
    '(ge, out) ←
      foldlM (λ '(ge, out) part,
                let wsdlType :=
                  if decide (Part_Type part = "") then Part_Element part
                  else Part_Type part in
                let partName :=
                  if decide (Part_Element part = "") then Part_Name part
                  else
                    let elName := trimns (Part_Element part) in
                    match ge_elements ge !! elName with
                    | Some el => trimns (Element_Name el)
                    | None =>
                        match ge_ctypes ge !! elName with
                        | Some p =>
                            match ge_cstore ge !! p with
                            | Some el => trimns (ComplexType_Name el)
                            | None => Part_Name part
                            end
                        | None =>
                            match ge_stypes ge !! elName with
                            | Some el => trimns (SimpleType_Name el)
                            | None => Part_Name part
                            end
                        end
                    end in
                '(ge, _, o) ←
                  genElementField ge
                    (mkElement partName wsdlType "" 0 "" false "" None) ∅;
                Done (ge, out +:+ o))
             (ge, out) (Message_Parts message);
    Done (ge, out +:+ "}" +:+ nl +:+ nl).

(** [genGoOpStruct]; the operation, its input and output and the two
    messages are dereferenced without a test. *)
Definition genGoOpStruct (ge : goEncoder) (targetNamespace : string)
    (bo : BindingOperation) : outcome (goEncoder * string) :=
  let name := goSymbol (BindingOperation_Name bo) in
  match ge_funcs ge !! BindingOperation_Name bo with
  | None => Fault nil_deref
  | Some op =>
      match Operation_Input op with
      | None => Fault nil_deref
      | Some im =>
          match ge_messages ge !! trimns im with
          | None => Fault nil_deref
          | Some inputMessage =>
              '(ge, out) ←
                (if nilb (Message_Parts inputMessage) then Done (ge, "")
                 else genOpStructMessage ge targetNamespace name inputMessage);
              match Operation_Output op with
              | None => Fault nil_deref
              | Some om =>
                  match ge_messages ge !! trimns om with
                  | None => Fault nil_deref
                  | Some outputMessage =>
                      '(ge, o) ← genOpStructMessage ge targetNamespace name outputMessage;
                      Done (ge, out +:+ o)
                  end
              end
          end
      end
  end.

(** [genDateTypes] *)
Definition genDateTypes (ge : goEncoder) : string :=
  concat_all
    ((λ '(needs, name), if (needs : bool) then
                          writeComments name (name +:+ " in WSDL format.") +:+
                          "type " +:+ name +:+ " string" +:+ nl +:+ nl
                        else "") <$>
     [(ge_needsDateType ge, "Date"); (ge_needsTimeType ge, "Time");
      (ge_needsDateTimeType ge, "DateTime"); (ge_needsDurationType ge, "Duration")]).

(** One round of the loop of [writeGoTypes] over the complex types. *)
Definition writeComplexType (targetNamespace : string) (acc : goEncoder * string)
    (name : string) : outcome (goEncoder * string) :=
  let '(ge, b) := acc in
  match ge_ctypes ge !! name with
  | None => Fault nil_deref
  | Some p =>
      ct ← deref (ge_cstore ge) p;
      '(ge, out, _) ← genGoStruct ge targetNamespace ct;
      Done (ge, b +:+ out +:+ genGoXMLTypeFunction ct)
  end.

Definition writeOpStruct (targetNamespace : string) (acc : goEncoder * string)
    (name : string) : outcome (goEncoder * string) :=
  let '(ge, b) := acc in
  match ge_soapOps ge !! name with
  | None => Fault nil_deref
  | Some bo =>
      '(ge, out) ← genGoOpStruct ge targetNamespace bo;
      Done (ge, b +:+ out)
  end.

(** [writeGoTypes]: the date types come first in the text, although they
    are generated last. *)
Definition writeGoTypes (ge : goEncoder) (targetNamespace : string)
    : outcome (goEncoder * string * error) :=
  '(ge, b) ← foldlM writeSimpleType (ge, "") (sortedSimpleTypes ge);
  '(ge, b) ← foldlM (writeComplexType targetNamespace) (ge, b) (sortedComplexTypes ge);
  '(ge, b) ← foldlM (writeOpStruct targetNamespace) (ge, b) (sortedOperations ge);
  Done (ge, genDateTypes ge +:+ b, None).

End Emit.

(** ** Templates

    The two function templates of the client are [text/template] programs.
    [node] is the part of the template language they use; [execute] writes
    the text of a template for a value, and stops, keeping what is written so
    far, at the first action that fails (an [index] out of range). *)

(** The value the two templates are executed on.  [RoundTripType] and
    [Action] are fields of the value given to [soapActionFuncT] only. *)
Record templateValue := mkTemplateValue {
  tv_RoundTripType : string;
  tv_Action : string;
  tv_GoClientType : string;
  tv_Name : string;
  tv_OpName : string;
  tv_OpInputDataType : string;
  tv_InputNames : list string;
  tv_OpResponseName : string;
  tv_OpResponseDataType : string;
  tv_OpOutputNames : list string;
  tv_OpOutputPrefixes : list string;
  tv_Input : string;
  tv_Output : string;
  tv_RetDef : string;
  tv_RPCStyle : bool }.

#[local] Unset Elimination Schemes.
Inductive node : Type :=
| T (text : string)                                   (* literal text *)
| F (field : templateValue → string)                  (* {{.Field}} *)
| IfS (field : templateValue → string) (body : list node)   (* {{if .Field}}, a string *)
| IfB (field : templateValue → bool) (body : list node)     (* {{if .Field}}, a bool *)
| Range (field : templateValue → list string) (body : list node)
                                      (* {{range $index, $element := .Field}} *)
| Elem                                                (* {{$element}} *)
| IndexAt (field : templateValue → list string) (i : nat)   (* {{index .Field i}} *)
| IndexCur (field : templateValue → list string).     (* {{index $.Field $index}} *)
#[local] Set Elimination Schemes.

(** The text written and whether execution is still going. *)
Definition written := (string * bool)%type.

Definition then_ (a : written) (k : unit → written) : written :=
  if a.2 then let b := k () in (a.1 +:+ b.1, b.2) else a.

Fixpoint execute_node (v : templateValue) (cur : option (nat * string)) (n : node)
    {struct n} : written :=
  let execute_list :=
    fix go (cur : option (nat * string)) (l : list node) {struct l} : written :=
      match l with
      | [] => ("", true)
      | n :: l' => then_ (execute_node v cur n) (λ _, go cur l')
      end in
  match n with
  | T text => (text, true)
  | F field => (field v, true)
  | IfS field body =>
      if decide (field v = "") then ("", true) else execute_list cur body
  | IfB field body =>
      if field v then execute_list cur body else ("", true)
  | Range field body =>
      (fix loop (i : nat) (xs : list string) {struct xs} : written :=
         match xs with
         | [] => ("", true)
         | x :: xs' => then_ (execute_list (Some (i, x)) body) (λ _, loop (S i) xs')
         end) 0%nat (field v)
  | Elem =>
      match cur with
      | Some (_, x) => (x, true)
      | None => ("", false)
      end
  | IndexAt field i =>
      match field v !! i with
      | Some x => (x, true)
      | None => ("", false)
      end
  | IndexCur field =>
      match cur with
      | Some (i, _) =>
          match field v !! i with
          | Some x => (x, true)
          | None => ("", false)
          end
      | None => ("", false)
      end
  end.

Fixpoint execute_list (v : templateValue) (cur : option (nat * string)) (l : list node)
    : written :=
  match l with
  | [] => ("", true)
  | n :: l' => then_ (execute_node v cur n) (λ _, execute_list v cur l')
  end.

(** [t.Execute(w, v)]: the text written to [w]; the error is dropped by the
    callers. *)
Definition Execute (t : list node) (v : templateValue) : string :=
  (execute_list v None t).1.

Definition soapFuncT : list node :=
  [T ("func (c *");
   F tv_GoClientType;
   T (") ");
   F tv_Name;
   T ("(");
   F tv_Input;
   T (") (");
   F tv_Output;
   T (") {" +:+ nl +:+ tab +:+ "α := struct {" +:+ nl +:+ tab +:+ tab);
   IfS tv_OpInputDataType
     [T (nl +:+ tab +:+ tab +:+ tab);
      IfB tv_RPCStyle
        [T ("M")];
      T (" ");
      F tv_OpInputDataType;
      T (" `xml:" +:+ dq);
      F tv_OpName;
      T (dq +:+ "`" +:+ nl +:+ tab +:+ tab)];
   T (nl +:+ tab +:+ "}{" +:+ nl +:+ tab +:+ tab);
   IfS tv_OpInputDataType
     [F tv_OpInputDataType;
      T (" {" +:+ nl +:+ tab +:+ tab +:+ tab);
      Range tv_InputNames
        [Elem;
         T ("," +:+ nl +:+ tab +:+ tab +:+ tab)];
      T (nl +:+ tab +:+ tab +:+ "},")];
   T (nl +:+ tab +:+ "}" +:+ nl +:+ nl +:+ tab +:+ "γ := struct {" +:+ nl +:+ tab +:+ tab);
   IfS tv_OpResponseDataType
     [T (nl +:+ tab +:+ tab +:+ tab);
      IfB tv_RPCStyle
        [T ("M ")];
      F tv_OpResponseDataType;
      T (" `xml:" +:+ dq);
      F tv_OpResponseName;
      T (dq +:+ "`" +:+ nl +:+ tab +:+ tab)];
   T (nl +:+ tab +:+ "}{}" +:+ nl +:+ tab +:+ "if err := c.cli.RoundTripWithAction(" +:+ dq);
   F tv_Name;
   T (dq +:+ ", α, &γ); err != nil {" +:+ nl +:+ tab +:+ tab +:+ "return ");
   F tv_RetDef;
   T (nl +:+ tab +:+ "}" +:+ nl +:+ tab +:+ "return ");
   Range tv_OpOutputNames
     [IndexCur tv_OpOutputPrefixes;
      T ("γ.");
      IfB tv_RPCStyle
        [T ("M.")];
      Elem;
      T (", ")];
   T ("nil" +:+ nl +:+ "}" +:+ nl)].

Definition soapActionFuncT : list node :=
  [T ("func (c *");
   F tv_GoClientType;
   T (") ");
   F tv_Name;
   T ("(");
   F tv_Input;
   T (") (");
   F tv_Output;
   T (") {" +:+ nl +:+ "    ");
   IndexAt tv_InputNames 0;
   T (".Version = RequestVersion" +:+ nl +:+ "    ");
   IndexAt tv_InputNames 0;
   T (".TypeNamespace = Namespace" +:+ nl +:+ "    ");
   IndexAt tv_InputNames 0;
   T (".Party = c.cli.party" +:+ nl +:+ nl +:+ tab +:+ "req := struct {" +:+ nl +:+ tab +:+ tab);
   IfS tv_OpInputDataType
     [T (nl +:+ tab +:+ tab +:+ tab);
      IfB tv_RPCStyle
        [T ("M")];
      T (" ");
      F tv_OpInputDataType;
      T (" `xml:" +:+ dq);
      F tv_OpName;
      T (dq +:+ "`" +:+ nl +:+ tab +:+ tab)];
   T (nl +:+ tab +:+ "}{" +:+ nl +:+ tab +:+ tab);
   IfS tv_OpInputDataType
     [F tv_OpInputDataType;
      T (" {" +:+ nl +:+ tab +:+ tab +:+ tab);
      Range tv_InputNames
        [Elem;
         T ("," +:+ nl +:+ tab +:+ tab +:+ tab)];
      T (nl +:+ tab +:+ tab +:+ "},")];
   T (nl +:+ tab +:+ "}" +:+ nl +:+ nl +:+ tab +:+ "res := struct {" +:+ nl +:+ tab +:+ tab +:+ "XMLName  xml.Name `xml:" +:+ dq +:+ "Envelope" +:+ dq +:+ "`" +:+ nl +:+ tab +:+ tab +:+ "XMLNSNS2 string   `xml:" +:+ dq +:+ "xmlns:ns2,attr" +:+ dq +:+ "`" +:+ nl +:+ tab +:+ tab +:+ "XMLNSNS3 string   `xml:" +:+ dq +:+ "xmlns:ns3,attr" +:+ dq +:+ "`" +:+ nl +:+ "        Body     struct {" +:+ nl +:+ "            ");
   IfS tv_OpResponseDataType
     [T (nl +:+ "                ");
      IfB tv_RPCStyle
        [T ("M ")];
      IndexAt tv_OpOutputNames 0;
      T (" ");
      IndexAt tv_OpOutputNames 0;
      T (nl +:+ "            ")];
   T (nl +:+ "        } `xml:" +:+ dq +:+ "Body" +:+ dq +:+ "`" +:+ nl +:+ tab +:+ "}{}" +:+ nl +:+ nl +:+ "    err := c.cli.call(ctx, " +:+ dq);
   F tv_Name;
   T (dq +:+ ", req, &res)" +:+ nl +:+ "    if err != nil {" +:+ nl +:+ tab +:+ tab +:+ "return nil, err" +:+ nl +:+ "    }" +:+ nl +:+ nl +:+ "    return &res.Body.");
   IndexAt tv_OpOutputNames 0;
   T (", nil" +:+ nl +:+ "}" +:+ nl)].


(** ** Operations *)

Record parameter := mkParameter {
  code_ : string;
  dataType : string;
  xmlToken : string }.

Definition isGoKeyword (s : string) : bool :=
  str_in s ["break"; "case"; "chan"; "const"; "continue"; "default"; "else"; "defer";
            "fallthrough"; "for"; "func"; "go"; "goto"; "if"; "import"; "interface";
            "map"; "package"; "range"; "return"; "select"; "struct"; "switch"; "type";
            "var"].

Definition maskKeywordUsage (code : string) : string :=
  if isGoKeyword code then "_" +:+ code else code.

Definition code (params : list parameter) : list string :=
  (λ p, maskKeywordUsage (code_ p) +:+ " " +:+ dataType p) <$> params.

Definition codeParams (params : list parameter) : list string :=
  dataType <$> params.

(** [genParams] *)
Definition genParams (ge : goEncoder) (m : Message) (needsTag : bool)
    : goEncoder * list parameter :=
  foldl (λ '(ge, params) param,
           let code := Part_Name param in
           let '(ge, code, t, token, elName) :=
             if decide (Part_Type param ≠ "") then
               let '(ge, t) := wsdl2goType ge (Part_Type param) in
               (ge, code, t, t, trimns (Part_Type param))
             else if decide (Part_Element param ≠ "") then
               let elName := trimns (Part_Element param) in
               let code := goSymbol (Part_Element param) in
               let '(ge, t) :=
                 match ge_elements ge !! elName with
                 | Some el => wsdl2goType ge (trimns (Element_Type el))
                 | None => wsdl2goType ge (Part_Element param)
                 end in
               (ge, code, t, trimns (Part_Element param), elName)
             else (ge, code, "", "", "") in
           let ge :=
             if needsTag then
               set_needsTag (<[TrimPrefix t "*" := elName]> (ge_needsTag ge))
                 (set_needsStdPkg ({[ "encoding/xml" ]} ∪ ge_needsStdPkg ge) ge)
             else ge in
           (ge, params ++ [mkParameter code t token]))
        (ge, []) (Message_Parts m).

(** [inputParams] *)
Definition inputParams (ge : goEncoder) (op : Operation)
    : goEncoder * (list parameter * error) :=
  match Operation_Input op with
  | None => (ge, ([], None))
  | Some message =>
      let im := trimns message in
      match ge_messages ge !! im with
      | None =>
          (ge, ([], Some ("operation " +:+ Quote (Operation_Name op) +:+
                          " wants input message " +:+ Quote im +:+
                          " but it's not defined")))
      | Some req => let '(ge, ps) := genParams ge req false in (ge, (ps, None))
      end
  end.

(** [outputParams]: the output parameters, then the error. *)
Definition outputParams (ge : goEncoder) (op : Operation)
    : goEncoder * (list parameter * error) :=
  let out := [mkParameter "err" "error" ""] in
  match Operation_Output op with
  | None => (ge, (out, None))
  | Some message =>
      let om := trimns message in
      match ge_messages ge !! om with
      | None =>
          (ge, ([], Some ("operation " +:+ Quote (Operation_Name op) +:+
                          " wants output message " +:+ Quote om +:+
                          " but it's not defined")))
      | Some resp => let '(ge, ps) := genParams ge resp false in (ge, (ps ++ out, None))
      end
  end.

(** [fixFuncNameConflicts]: ["Func"] is appended as long as the name is that
    of a simple or complex type. *)
Fixpoint fixFuncNameConflicts_go (fuel : nat) (ge : goEncoder) (name : string)
    : outcome string :=
  match fuel with
  | O => Timeout
  | S fuel =>
      if decide (is_Some (ge_stypes ge !! name)) then
        fixFuncNameConflicts_go fuel ge (name +:+ "Func")
      else if decide (is_Some (ge_ctypes ge !! name)) then
        fixFuncNameConflicts_go fuel ge (name +:+ "Func")
      else Done name
  end.

(** One more step than there are type names is enough
    (see [fixFuncNameConflicts_total]). *)
Definition fixFuncNameConflicts (ge : goEncoder) (name : string) : outcome string :=
  fixFuncNameConflicts_go (S (size (dom (ge_stypes ge) ∪ dom (ge_ctypes ge)))) ge name.

Definition getGoClientType (ge : goEncoder) (d : Definitions) : string :=
  if decide (ge_goClientType ge = "") then PortType_Name (Definitions_PortType d)
  else ge_goClientType ge.

Definition inputArgs (in_ : list string) : string :=
  Join ("ctx context.Context" :: in_) ",".

Definition slice_bounds : string := "runtime error: slice bounds out of range".
Definition index_range : string := "runtime error: index out of range".

(** The rune U+FFFD in UTF-8, which [strings.ToUpper] and
    [strings.ToLower] write for a byte that is no rune by itself. *)
Definition replacement_rune : string :=
  String "239"%char (String "191"%char (String "189"%char EmptyString)).

(** [strings.ToUpper(s[:1]) + s[1:]] and [strings.ToLower(s[:1]) + s[1:]]
    of [writeSOAPFunc]: slicing the empty string is a panic; the first byte
    alone is a string of its own, an ASCII letter or, from 0x80 on, a byte
    that is no rune. *)
Definition upper_first (s : string) : outcome string :=
  match s with
  | EmptyString => Fault slice_bounds
  | String c s' =>
      Done ((if Nat.ltb (nat_of_ascii c) 128 then String (to_upper c) EmptyString
             else replacement_rune) +:+ s')
  end.
Definition lower_first (s : string) : outcome string :=
  match s with
  | EmptyString => Fault slice_bounds
  | String c s' =>
      Done ((if Nat.ltb (nat_of_ascii c) 128 then String (to_lower c) EmptyString
             else replacement_rune) +:+ s')
  end.

(** [strings.ToLower(n)[:1] + n[1:]] of [writeInterfaceFuncs] and
    [writeGoClientType]: the first byte of the lower-cased name, then the
    name without its first byte.  For a name that starts with an ASCII byte
    that is the lower case of the byte.  For a name that starts with a rune
    beyond ASCII it is the first byte of the lower case of that rune, which
    is the first byte of the rune unless the Unicode tables give the rune a
    lower case in another block; the model keeps the byte. *)
Definition lower_head (s : string) : outcome string :=
  match s with
  | EmptyString => Fault slice_bounds
  | String c s' => Done (String (to_lower c) s')
  end.

Fixpoint mapM {A B : Type} (f : A → outcome B) (l : list A) : outcome (list B) :=
  match l with
  | [] => Done []
  | a :: l' => b ← f a; bs ← mapM f l'; Done (b :: bs)
  end.

(** [writeSOAPFunc]: the text written and the boolean returned. *)
Definition writeSOAPFunc (ge : goEncoder) (d : Definitions) (op : Operation)
    (in_ out : list parameter) : outcome (string * bool) :=
  match ge_soapOps ge !! Operation_Name op with
  | None => Done ("", false)
  | Some bindingOp =>
      let rpcStyle :=
        match Binding_Style (Definitions_Binding d) with
        | Some style => bool_decide (style = "rpc")
        | None => false
        end in
      let inputNames :=
        (λ name, let returnVal := maskKeywordUsage (code_ name) in
                 if HasPrefix (dataType name) "*" then returnVal
                 else "&" +:+ returnVal) <$> in_ in
      let outputDataTypes := dataType <$> out in
      match reverse out with
      | [] => Fault "runtime error: makeslice: len out of range"
      | _ :: rev_results =>
          let results := reverse rev_results in
          operationOutputNames ← mapM (λ name, upper_first (code_ name)) results;
          let operationOutputPrefixes :=
            (λ name, if HasPrefix (dataType name) "*" then "" else "*") <$> results in
          let retDefaults :=
            ((λ name, if HasPrefix (dataType name) "*" then "nil"
                      else wsdl2goDefault (dataType name)) <$> results) ++ ["err"] in
          func ← match ge_funcs ge !! Operation_Name op with
                 | Some f => Done f
                 | None => Fault nil_deref
                 end;
          message ← match Operation_Input func with
                    | Some m => Done m
                    | None => Fault nil_deref
                    end;
          let namespacedOpName :=
            match Split message ":"%char with
            | ns :: _ :: _ => ns +:+ ":" +:+ Operation_Name op
            | _ => Operation_Name op
            end in
          let opResponseName := Operation_Name op +:+ "Response" in
          operationInputDataType ←
            match in_, Operation_Input op with
            | _ :: _, Some m =>
                match ge_messages ge !! trimns m with
                | Some msg => Done (sanitizedOperationsType (Message_Name msg))
                | None => Fault nil_deref
                end
            | _, _ => Done (if rpcStyle then "struct{}" else "")
            end;
          '(operationInputDataType, operationOutputDataType) ←
            match Operation_Output op with
            | Some m =>
                match ge_messages ge !! trimns m with
                | Some msg =>
                    Done (operationInputDataType, sanitizedOperationsType (Message_Name msg))
                | None => Fault nil_deref
                end
            | None =>
                Done (if rpcStyle then "struct{}" else operationInputDataType, "")
            end;
          goClientType ← lower_first (getGoClientType ge d);
          let input := inputArgs (code in_) in
          let soapAction := BindingOperation_Action bindingOp in
          let '(soapFunctionName, soapAction) :=
            if decide (soapAction = "")
            then ("RoundTripWithAction", BindingOperation_Action11 bindingOp)
            else ("RoundTripSoap12", soapAction) in
          if decide (soapAction ≠ "") then
            Done (Execute soapActionFuncT
                    (mkTemplateValue soapFunctionName soapAction goClientType
                       (goSymbol (Operation_Name op)) namespacedOpName
                       operationInputDataType inputNames opResponseName
                       operationOutputDataType operationOutputNames
                       operationOutputPrefixes input (Join outputDataTypes ",")
                       (Join retDefaults ",") rpcStyle),
                  true)
          else
            Done (Execute soapFuncT
                    (mkTemplateValue "" "" goClientType
                       (goSymbol (Operation_Name op)) namespacedOpName
                       operationInputDataType inputNames opResponseName
                       operationOutputDataType operationOutputNames
                       operationOutputPrefixes input (Join outputDataTypes ",")
                       (Join retDefaults ",") rpcStyle),
                  true)
      end
  end.

(** The template [interfaceTypeT], executed. *)
Record interfaceTypeFunc := mkInterfaceTypeFunc {
  itf_Doc : string;
  itf_Name : string;
  itf_Input : string;
  itf_Output : string }.

Definition interfaceTypeT (Name Impl : string) (Funcs : list interfaceTypeFunc) : string :=
  nl +:+ "// new" +:+ Name +:+ " creates an initializes a " +:+ Name +:+ "." +:+ nl +:+
  "func new" +:+ Name +:+ "(cli *client) " +:+ Name +:+ " {" +:+ nl +:+
  tab +:+ "return &" +:+ Impl +:+ "{cli}" +:+ nl +:+
  "}" +:+ nl +:+ nl +:+
  "// " +:+ Name +:+ " was auto-generated from WSDL" +:+ nl +:+
  "// and defines interface for the remote service. Useful for testing." +:+ nl +:+
  "type " +:+ Name +:+ " interface {" +:+
  concat_all ((λ f, nl +:+ itf_Doc f +:+ itf_Name f +:+ "(" +:+ itf_Input f +:+ ") (" +:+
                    itf_Output f +:+ ")" +:+ nl) <$> Funcs) +:+
  nl +:+ "}" +:+ nl.

(** The template [portTypeT], executed. *)
Definition portTypeT (Name Interface : string) : string :=
  nl +:+ "// " +:+ Name +:+ " implements the " +:+ Interface +:+ " interface." +:+ nl +:+
  "type " +:+ Name +:+ " struct {" +:+ nl +:+
  tab +:+ "cli *client" +:+ nl +:+
  "}" +:+ nl +:+ nl.

(** The loop of [writeInterfaceFuncs]: the functions of the interface, or
    the error of the first bound operation whose messages are undefined. *)
Definition interfaceFunc (acc : goEncoder * list interfaceTypeFunc * error) (fn : string)
    : outcome (goEncoder * list interfaceTypeFunc * error) :=
  let '(ge, funcs, err) := acc in
  match err with
  | Some _ => Done acc
  | None =>
      match ge_funcs ge !! fn with
      | None => Fault nil_deref
      | Some op =>
          match ge_soapOps ge !! Operation_Name op with
          | None => Done acc
          | Some _ =>
              let '(ge, (inParams, err)) := inputParams ge op in
              match err with
              | Some e => Done (ge, funcs, Some e)
              | None =>
                  let '(ge, (outParams, err)) := outputParams ge op in
                  match err with
                  | Some e => Done (ge, funcs, Some e)
                  | None =>
                      let name := goSymbol (Operation_Name op) in
                      Done (ge,
                            funcs ++ [mkInterfaceTypeFunc
                                        (writeComments name (Operation_Doc op)) name
                                        (inputArgs (code inParams))
                                        (Join (codeParams outParams) ",")],
                            None)
                  end
              end
          end
      end
  end.

(** The functions [writeInterfaceFuncs] lists in the interface. *)
Definition interfaceFuncs (ge : goEncoder)
    : outcome (goEncoder * list interfaceTypeFunc * error) :=
  foldlM interfaceFunc (ge, [], None) (ge_funcnames ge).

(** [writeInterfaceFuncs] *)
Definition writeInterfaceFuncs (ge : goEncoder) (d : Definitions)
    : outcome (goEncoder * string * error) :=
  '(ge, funcs, err) ← interfaceFuncs ge;
  match err with
  | Some e => Done (ge, "", Some e)
  | None =>
      let n := getGoClientType ge d in
      impl ← lower_head n;
      Done (ge, interfaceTypeT (goSymbol n) impl funcs, None)
  end.

(** [writeGoClientType] *)
Definition writeGoClientType (ge : goEncoder) (d : Definitions)
    : outcome (goEncoder * string * error) :=
  if decide (ge_funcs ge = ∅) then Done (ge, "", None)
  else
    let n := getGoClientType ge d in
    name ← lower_head n;
    Done (ge, portTypeT name (goSymbol n), None).

(** The function [writeGoClientFuncs] writes for an operation that
    [writeSOAPFunc] declines. *)
Definition stub (fn : string) (inParams outParams : list parameter) : string :=
  "func " +:+ fn +:+ "(" +:+ inputArgs (code inParams) +:+ ") (" +:+
  Join (codeParams outParams) "," +:+ ") {" +:+ nl +:+
  "return " +:+ Join ((λ p, wsdl2goDefault (dataType p)) <$> outParams) "," +:+ nl +:+
  "}" +:+ nl +:+ nl.

(** One round of the loop of [writeGoClientFuncs]. *)
Definition clientFunc (d : Definitions) (acc : goEncoder * string * error) (fn : string)
    : outcome (goEncoder * string * error) :=
  let '(ge, w, err) := acc in
  match err with
  | Some _ => Done acc
  | None =>
      match ge_funcs ge !! fn with
      | None => Fault nil_deref
      | Some op =>
          let w := w +:+ writeComments (Operation_Name op) (Operation_Doc op) in
          let '(ge, (inParams, err)) := inputParams ge op in
          match err with
          | Some e => Done (ge, w, Some e)
          | None =>
              let '(ge, (outParams, err)) := outputParams ge op in
              match err with
              | Some e => Done (ge, w, Some e)
              | None =>
                  '(text, ok) ← writeSOAPFunc ge d op inParams outParams;
                  let w := w +:+ text in
                  if (ok : bool) then Done (ge, w, None : error)
                  else
                    let ge := set_needsStdPkg
                                ({[ "errors" ]} ∪ ({[ "context" ]} ∪ ge_needsStdPkg ge)) ge in
                    fn ← fixFuncNameConflicts ge (goSymbol (Operation_Name op));
                    Done (ge, w +:+ stub fn inParams outParams, None)
              end
          end
      end
  end.

(** [writeGoClientFuncs] *)
Definition writeGoClientFuncs (ge : goEncoder) (d : Definitions)
    : outcome (goEncoder * string * error) :=
  let ge := set_needsStdPkg
              ({[ "encoding/xml" ]} ∪ ({[ "context" ]} ∪ ge_needsStdPkg ge)) ge in
  let binding := Definitions_Binding d in
  if decide (Binding_Type binding ≠ "" ∧
             trimns (Binding_Type binding) ≠ trimns (PortType_Name (Definitions_PortType d)))
  then
    Done (ge, "",
          Some ("binding " +:+ Quote (Binding_Name binding) +:+ " requires port type " +:+
                Quote (Binding_Type binding) +:+ " but it's not defined"))
  else if decide (ge_funcs ge = ∅) then Done (ge, "", None)
  else foldlM (clientFunc d) (ge, "", None) (ge_funcnames ge).

(** ** The import resolver *)

(** What is outside the program: for every location, whether [url.Parse]
    accepts it and which scheme it has, and what reading and decoding it
    gives.  A decoded document is given both as a schema fragment and as the
    effect of decoding it into the definitions ([importRoot] decodes into
    [d], [includeImport] into a fresh schema). *)
Inductive location_kind : Type :=
| BadURL (err : string)
| HTTP
| File.

Inductive fetched : Type :=
| Unreachable (err : string)
| Undecodable (err : string)
| Decoded (s : Schema) (into : Definitions → Definitions).

Record World := mkWorld {
  world_kind : string → location_kind;
  world_content : string → fetched }.

(** The state of a run of the resolver: the encoder (for
    [ge.importedSchemas]), the definitions the fragments are merged into, and
    the locations on which [http.Get] or [os.Open] was called, latest
    first. *)
Record importState := mkImportState {
  is_ge : goEncoder;
  is_d : Definitions;
  is_log : list string }.

Definition set_Schema (s : Schema) (d : Definitions) : Definitions :=
  mkDefinitions (Definitions_TargetNamespace d) (Definitions_Namespaces d)
    (Definitions_Imports d) s (Definitions_Messages d) (Definitions_PortType d)
    (Definitions_Binding d).

Definition stamp_ComplexType (ns : string) (ct : ComplexType) : ComplexType :=
  mkComplexType (ComplexType_Name ct) ns (ComplexType_Abstract ct) (ComplexType_Doc ct)
    (ComplexType_AllElements ct) (ComplexType_Attributes ct) (ComplexType_Sequence ct)
    (ComplexType_Choice ct) (ComplexType_ComplexContent ct) (ComplexType_SimpleContent ct).

Definition stamp_SimpleType (ns : string) (st : SimpleType) : SimpleType :=
  mkSimpleType (SimpleType_Name st) ns (SimpleType_Restriction st) (SimpleType_Union st).

(** The two loops of [unionSchemasData] that write the target namespace of
    the schema into its types. *)
Definition stamp_Schema (s : Schema) : Schema :=
  mkSchema (Schema_TargetNamespace s) (Schema_Namespaces s) (Schema_Imports s)
    (Schema_Includes s)
    (stamp_SimpleType (Schema_TargetNamespace s) <$> Schema_SimpleTypes s)
    (stamp_ComplexType (Schema_TargetNamespace s) <$> Schema_ComplexTypes s)
    (Schema_Elements s).

(** [unionSchemasData] for a fragment [s] that is not the schema of [d]. *)
Definition unionSchemasData (d : Definitions) (s : Schema) : Definitions :=
  let s := stamp_Schema s in
  let ds := Definitions_Schema d in
  mkDefinitions (Definitions_TargetNamespace d)
    (Schema_Namespaces s ∪ Definitions_Namespaces d)
    (Definitions_Imports d)
    (mkSchema (Schema_TargetNamespace ds) (Schema_Namespaces ds) (Schema_Imports ds)
       (Schema_Includes ds)
       (Schema_SimpleTypes ds ++ Schema_SimpleTypes s)
       (Schema_ComplexTypes ds ++ Schema_ComplexTypes s)
       (Schema_Elements ds ++ Schema_Elements s))
    (Definitions_Messages d) (Definitions_PortType d) (Definitions_Binding d).

(** [ge.unionSchemasData(d, &d.Schema)], the first statement of [encode]: the
    types of the schema are stamped in place, then the schema is appended to
    itself. *)
Definition unionSchemasData_self (d : Definitions) : Definitions :=
  let d := set_Schema (stamp_Schema (Definitions_Schema d)) d in
  unionSchemasData d (Definitions_Schema d).

Section Resolver.

Variable w : World.

(** [importRemote]: an error, or what was decoded; nothing is decoded for a
    location that is marked as imported.  Only the branch for [http] and
    [https] marks the location. *)
Definition importRemote (st : importState) (location : string)
    : importState * (string + option (Schema * (Definitions → Definitions))) :=
  if decide (location ∈ ge_importedSchemas (is_ge st)) then (st, inr None)
  else
    match world_kind w location with
    | BadURL err => (st, inl err)
    | HTTP =>
        let st := mkImportState (is_ge st) (is_d st) (location :: is_log st) in
        match world_content w location with
        | Unreachable err => (st, inl err)
        | Undecodable err =>
            (mkImportState
               (set_importedSchemas ({[location]} ∪ ge_importedSchemas (is_ge st)) (is_ge st))
               (is_d st) (is_log st),
             inl err)
        | Decoded s into =>
            (mkImportState
               (set_importedSchemas ({[location]} ∪ ge_importedSchemas (is_ge st)) (is_ge st))
               (is_d st) (is_log st),
             inr (Some (s, into)))
        end
    | File =>
        let st := mkImportState (is_ge st) (is_d st) (location :: is_log st) in
        match world_content w location with
        | Unreachable err => (st, inl ("could not open file: " +:+ err))
        | Undecodable err => (st, inl err)
        | Decoded s into => (st, inr (Some (s, into)))
        end
    end.

Definition emptySchema : Schema := mkSchema "" ∅ [] [] [] [] [].

(** [includeImport]; the errors of the two inner loops are dropped, as in
    the source. *)
Fixpoint includeImport (fuel : nat) (st : importState) (location : string)
    : outcome (importState * error) :=
  match fuel with
  | O => Timeout
  | S fuel =>
      if decide (location = "" ∨ location ∈ ge_importedSchemas (is_ge st))
      then Done (st, None)
      else
        let '(st, r) := importRemote st location in
        match r with
        | inl err => Done (st, Some err)
        | inr doc =>
            let schema := match doc with
                          | Some (s, _) => s
                          | None => emptySchema
                          end in
            let st := mkImportState (is_ge st) (unionSchemasData (is_d st) schema)
                        (is_log st) in
            st ← foldlM (λ st item, r ← includeImport fuel st item; Done r.1)
                   st (Schema_Imports schema);
            st ← foldlM (λ st item, r ← includeImport fuel st item; Done r.1)
                   st (Schema_Includes schema);
            Done (st, None)
        end
  end.

(** A loop that returns the first error. *)
Fixpoint until_error {A : Type} (f : importState → A → outcome (importState * error))
    (st : importState) (l : list A) : outcome (importState * error) :=
  match l with
  | [] => Done (st, None)
  | a :: l' =>
      r ← f st a;
      match r.2 with
      | Some err => Done r
      | None => until_error f r.1 l'
      end
  end.

(** [importSchema] *)
Definition importSchema (fuel : nat) (st : importState) : outcome (importState * error) :=
  let schema := Definitions_Schema (is_d st) in
  r ← until_error (includeImport fuel) st (Schema_Imports schema);
  match r.2 with
  | Some err => Done r
  | None => until_error (includeImport fuel) r.1 (Schema_Includes schema)
  end.

(** [importRoot] *)
Definition importRoot (st : importState) : outcome (importState * error) :=
  until_error
    (λ st location,
       if decide (location = "") then Done (st, None)
       else
         let '(st, r) := importRemote st location in
         match r with
         | inl err => Done (st, Some err)
         | inr None => Done (st, None)
         | inr (Some (_, into)) =>
             Done (mkImportState (is_ge st) (into (is_d st)) (is_log st), None)
         end)
    st (Definitions_Imports (is_d st)).

(** [importParts] *)
Definition importParts (fuel : nat) (st : importState) : outcome (importState * error) :=
  r ← importRoot st;
  match r.2 with
  | Some err => Done r
  | None => importSchema fuel r.1
  end.

End Resolver.

(** ** The driver *)

(** The order in which a [range] over a map yields its keys is not fixed by
    the language: it may differ from one run to the next.  A run is given the
    orders it meets as functions from the keys (as [elements] lists them) to
    the order of that run; [ranges_ok] says that they only reorder. *)
Record ranges := mkRanges {
  range_ctypes : list string → list string;
  range_needsStdPkg : list string → list string;
  range_needsExtPkg : list string → list string }.

Definition ranges_ok (rng : ranges) : Prop :=
  (∀ l, range_ctypes rng l ≡ₚ l) ∧
  (∀ l, range_needsStdPkg rng l ≡ₚ l) ∧
  (∀ l, range_needsExtPkg rng l ≡ₚ l).

(** The calls [Encode] makes to the Go parser and to [gofmt]. *)
Inductive call : Type :=
| ParseFile (src : string)
| Gofmt (path src : string).

(** [%5d]: a decimal number, right-aligned in five columns. *)
Definition pad5 (n : nat) : string :=
  let s := pretty n in
  String.string_of_list_ascii (replicate (5 - String.length s) " "%char) +:+ s.

(** The listing of the generated code in the error for code that does not
    parse: [bufio.Scanner] yields the lines without their line feed (and
    without a final carriage return), and no empty line after the last line
    feed. *)
Definition scan_lines (s : string) : list string :=
  let strip_cr l :=
    match String.rev l with
    | String "013" r => String.rev r
    | _ => l
    end in
  let ls := Split s "010"%char in
  strip_cr <$> (match reverse ls with
                | "" :: r => reverse r
                | _ => ls
                end).

Definition numbered (s : string) : string :=
  concat_all (imap (λ i l, pad5 (S i) +:+ tab +:+ l +:+ nl) (scan_lines s)).

Section Encode.

Variable CopyEnrich : Element → Element → Element.
Variable w : World.

(** [BindingPackageName(d.Binding).String()], defined in another file of
    the package. *)
Variable BindingPackageName : Binding → string.

(** [setNamespace] and the part of [cacheTypes] before its last loop: from
    the schema of [d], the registries [ge.stypes], [ge.ctypes],
    [ge.typeAliases] and [ge.elements] are filled and the complex types
    are placed in memory.  The model takes this stage as given. *)
Variable catalogTypes : goEncoder → Definitions → goEncoder.

(** The Go parser ([parser.ParseFile]: the error, if any), the lookup of
    the formatter ([gofmtPath]: the path, or an error) and the formatter
    ([cmd.Run]: what it writes to its standard output and error, and its
    error). *)
Variable parseFile : string → error.
Variable gofmtPath : string + string.
Variable gofmt : string → string → string * string * error.

Variable rng : ranges.

(** The last loop of [cacheTypes]: every registered complex type is
    flattened, in the order the map yields them. *)
Definition flattenTypes (fuel : nat) (ge : goEncoder) : outcome goEncoder :=
  foldlM (λ ge name,
            match ge_ctypes ge !! name with
            | Some ct =>
                h ← flatTypeElements (ge_ctypes ge) fuel (ge_cstore ge) ct;
                Done (set_cstore h ge)
            | None => Done ge
            end)
         ge (range_ctypes rng (elements (dom (ge_ctypes ge)))).

Definition cacheTypes (fuel : nat) (ge : goEncoder) (d : Definitions) : outcome goEncoder :=
  flattenTypes fuel (catalogTypes ge d).

(** [cacheFuncs], [cacheMessages], [cacheSOAPOperations] *)
Definition cacheOperations (ge : goEncoder) (d : Definitions) : goEncoder :=
  let funcs :=
    foldl (λ m v, <[Operation_Name v := v]> m) (ge_funcs ge)
          (PortType_Operations (Definitions_PortType d)) in
  let funcnames := sort_strings (elements (dom funcs)) in
  let messages :=
    foldl (λ m v, <[Message_Name v := v]> m) (ge_messages ge) (Definitions_Messages d) in
  let soapOps :=
    foldl (λ m v, <[BindingOperation_Name v := v]> m) (ge_soapOps ge)
          (Binding_Operations (Definitions_Binding d)) in
  set_operations funcs funcnames messages soapOps ge.

(** [addVersionAttrToOpTypes]: every operation appends the two attributes
    to the complex type named like its input message, whatever the order
    of the operations. *)
Definition typeNamespaceAttribute : Attribute :=
  mkAttribute "TypeNamespace" "xsd:string" "" "xmlns" "" false 0.

Definition addVersionAttrToOpTypes (ge : goEncoder) : outcome goEncoder :=
  if decide (ge_requestVersion ge = "") then Done ge
  else
    foldlM (λ ge f,
              match Operation_Input f.2 with
              | None => Fault nil_deref
              | Some m =>
                  match ge_messages ge !! trimns m with
                  | None => Fault nil_deref
                  | Some msg =>
                      match ge_ctypes ge !! Message_Name msg with
                      | None => Done ge
                      | Some p =>
                          ct ← deref (ge_cstore ge) p;
                          let attrs := (flatAttributeField (ComplexType_Attributes ct)
                                          typeNamespaceAttribute ∅).1 in
                          let attrs := (flatAttributeField attrs versionAttribute ∅).1 in
                          Done (set_cstore (<[p := set_Attributes attrs ct]> (ge_cstore ge)) ge)
                      end
                  end
              end)
           ge (map_to_list (ge_funcs ge)).

(** The slice [ff] of [encode]. *)
Definition writers (ge : goEncoder) (d : Definitions)
    : list (goEncoder → outcome (goEncoder * string * error)) :=
  let types := λ ge, writeGoTypes CopyEnrich ge (Definitions_TargetNamespace d) in
  let interface := λ ge, writeInterfaceFuncs ge d in
  let clientType := λ ge, writeGoClientType ge d in
  let clientFuncs := λ ge, writeGoClientFuncs ge d in
  if decide (ge_soapOps ge ≠ ∅) then
    if ge_generateOnlyTypes ge then [types]
    else if ge_generateOnlyInterface ge then [interface; clientType; clientFuncs]
    else [interface; types; clientType; clientFuncs]
  else
    if ge_generateOnlyTypes ge then [types]
    else if ge_generateOnlyInterface ge then [clientFuncs]
    else [clientFuncs; types].

Definition run_writers (ge : goEncoder)
    (ff : list (goEncoder → outcome (goEncoder * string * error)))
    : outcome (goEncoder * string * error) :=
  foldlM (λ '(ge, b, err) f,
            match err with
            | Some _ => Done (ge, b, err)
            | None => '(ge, text, err) ← f ge; Done (ge, b +:+ text, err)
            end)
         (ge, "", None) ff.

(** The import list [encode] writes: the standard packages in the order
    the map yields them, an empty line when there are any, then the other
    packages. *)
Definition imports (ge : goEncoder) : string :=
  concat_all ((λ pkg, Quote pkg +:+ nl) <$>
              range_needsStdPkg rng (elements (ge_needsStdPkg ge))) +:+
  (if decide (ge_needsStdPkg ge = ∅) then "" else nl) +:+
  concat_all ((λ pkg, Quote pkg +:+ nl) <$>
              range_needsExtPkg rng (elements (ge_needsExtPkg ge))).

(** What [encode] writes before the body: the package clause, the imports
    and the two variables. *)
Definition header (ge : goEncoder) (d : Definitions) : string :=
  "package " +:+ default "%!s(<nil>)" (ge_packageName ge) +:+ nl +:+ nl +:+
  "import (" +:+ nl +:+ imports ge +:+ ")" +:+ nl +:+ nl +:+
  (if (negb (bool_decide (Schema_TargetNamespace (Definitions_Schema d) = "")) &&
       negb (ge_generateOnlyInterface ge))%bool
   then writeComments "Namespace" "" +:+
        "var Namespace = " +:+ Quote (Schema_TargetNamespace (Definitions_Schema d)) +:+
        nl +:+ nl
   else "") +:+
  (if (negb (bool_decide (ge_requestVersion ge = "")) &&
       negb (ge_generateOnlyInterface ge))%bool
   then writeComments "RequestVersion" "" +:+
        "var RequestVersion = " +:+ Quote (ge_requestVersion ge) +:+ nl +:+ nl
   else "").

(** [encode] up to the loop over [ff]: the encoder and the definitions the
    stages leave, the body written to the inner buffer [b], and the
    error. *)
Definition encode_body (fuel : nat) (ge : goEncoder) (d : Definitions)
    : outcome (goEncoder * Definitions * string * error) :=
  let d := unionSchemasData_self d in
  r ← importParts w fuel (mkImportState ge d []);
  let ge := is_ge r.1 in
  let d := is_d r.1 in
  match r.2 with
  | Some err => Done (ge, d, "", Some ("wsdl import: " +:+ err))
  | None =>
      ge ← cacheTypes fuel ge d;
      let ge := cacheOperations ge d in
      ge ← addVersionAttrToOpTypes ge;
      '(ge, b, err) ← run_writers ge (writers ge d);
      Done (ge, d, b, err)
  end.

(** [encode]: the encoder it leaves, the text written to [w] and the
    error.  Nothing is written before the stages have all succeeded; then
    the header is written, and the body after it. *)
Definition encode (fuel : nat) (ge : goEncoder) (d : Definitions)
    : outcome (goEncoder * string * error) :=
  '(ge, d, b, err) ← encode_body fuel ge d;
  match err with
  | Some e => Done (ge, "", Some e)
  | None => Done (ge, header ge d +:+ b, None)
  end.

(** [Encode]: the error returned, the text written to [ge.w] and the calls
    made to the parser and the formatter. *)
Definition Encode (fuel : nat) (ge : goEncoder) (d : option Definitions)
    : outcome (error * string * list call) :=
  match d with
  | None => Done (None, "", [])
  | Some d =>
      let ge :=
        match ge_packageName ge with
        | None => set_packageName (Some (BindingPackageName (Definitions_Binding d))) ge
        | Some _ => ge
        end in
      '(_, b, err) ← encode fuel ge d;
      match err with
      | Some e => Done (Some e, "", [])
      | None =>
          if decide (String.length b = 0%nat) then Done (None, "", [])
          else
            match parseFile b with
            | Some e =>
                Done (Some ("generated bad code: " +:+ e +:+ nl +:+ numbered b), "",
                      [ParseFile b])
            | None =>
                match gofmtPath with
                | inr e =>
                    Done (Some ("cannot find gofmt with err: " +:+ e), "", [ParseFile b])
                | inl path =>
                    let '(stdout, stderr, err) := gofmt path b in
                    match err with
                    | Some e =>
                        Done (Some ("gofmt: " +:+ e +:+ nl +:+
                                    (if decide (stderr = "") then ""
                                     else "gofmt stderr:" +:+ nl +:+ stderr +:+ nl) +:+
                                    "generated code:" +:+ nl +:+ b +:+ nl),
                              stdout, [ParseFile b; Gofmt path b])
                    | None => Done (None, stdout, [ParseFile b; Gofmt path b])
                    end
                end
            end
      end
  end.

End Encode.

(** *** A run on definitions without types and operations *)
Module EncodeExample.

Definition CopyEnrich (ref el : Element) : Element :=
  mkElement (Element_Name el) (Element_Type ref) "" (Element_Min el) (Element_Max el)
    (Element_Nillable ref) (Element_Tag ref) (Element_ComplexType ref).

(** No location can be read. *)
Definition nowhere : World :=
  mkWorld (λ _, File) (λ _, Unreachable "no such file or directory").

Definition noSchema : Schema := mkSchema "" ∅ [] [] [] [] [].

Definition noDefinitions : Definitions :=
  mkDefinitions "" ∅ [] noSchema [] (mkPortType "" []) (mkBinding "" "" None []).

(** A parser that accepts, a formatter that copies its input. *)
Definition parseFile (src : string) : error := None.
Definition gofmtPath : string + string := inl "/usr/local/go/bin/gofmt".
Definition gofmt (path src : string) : string * string * error := (src, "", None).

Definition BindingPackageName (b : Binding) : string := "main".
Definition catalogTypes (ge : goEncoder) (d : Definitions) : goEncoder := ge.

(** Two orders a map may yield its keys in: as [elements] lists them, and
    starting from the second key. *)
Definition in_order : ranges := mkRanges id id id.
Definition rotated : ranges := mkRanges id (rotate 1) id.

Definition generated : string :=
  "package main" +:+ nl +:+ nl +:+ "import (" +:+ nl +:+
  dq +:+ "context" +:+ dq +:+ nl +:+ dq +:+ "encoding/xml" +:+ dq +:+ nl +:+ nl +:+
  ")" +:+ nl +:+ nl.

Definition generated_rotated : string :=
  "package main" +:+ nl +:+ nl +:+ "import (" +:+ nl +:+
  dq +:+ "encoding/xml" +:+ dq +:+ nl +:+ dq +:+ "context" +:+ dq +:+ nl +:+ nl +:+
  ")" +:+ nl +:+ nl.

End EncodeExample.

(** *** Schema graphs to run the resolver on *)
Module ImportExample.

Definition fragment (imports includes : list string) : Schema :=
  mkSchema "urn:fragment" ∅ imports includes [] [] [].

Definition root (imports : list string) : Definitions :=
  mkDefinitions "" ∅ []
    (mkSchema "urn:root" ∅ imports [] [] [] [])
    [] (mkPortType "" []) (mkBinding "" "" None []).

Definition start (imports : list string) : importState :=
  mkImportState NewEncoder (root imports) [].

(** Local files: [a.xsd] includes itself, [b.xsd] imports nothing. *)
Definition files : World :=
  mkWorld (λ _, File)
    (λ location,
       if decide (location = "a.xsd") then Decoded (fragment [] ["a.xsd"]) id
       else if decide (location = "b.xsd") then Decoded (fragment [] []) id
       else Unreachable "no such file or directory").

(** The same graph behind [http]; [c.xsd] imports a location that cannot
    be retrieved. *)
Definition a_url : string := "http://example.com/a.xsd".
Definition b_url : string := "http://example.com/b.xsd".
Definition c_url : string := "http://example.com/c.xsd".
Definition missing_url : string := "http://example.com/missing.xsd".

Definition web : World :=
  mkWorld (λ _, HTTP)
    (λ location,
       if decide (location = a_url) then Decoded (fragment [] [a_url]) id
       else if decide (location = b_url) then Decoded (fragment [] []) id
       else if decide (location = c_url) then Decoded (fragment [missing_url] []) id
       else Unreachable "no such host").

(** How often a location was fetched. *)
Definition fetches (location : string) (st : importState) : nat :=
  List.length (filter (λ l, l = location) (is_log st)).

End ImportExample.

(** *** A service with one operation *)
Module ServiceExample.

Definition GetQuote : Operation :=
  mkOperation "GetQuote" "" (Some "tns:GetQuoteRequest") (Some "tns:GetQuoteResponse").

Definition messages : list Message :=
  [mkMessage "GetQuoteRequest" [mkPart "symbol" "xsd:string" ""];
   mkMessage "GetQuoteResponse" [mkPart "price" "xsd:float" ""]].

(** The definitions, for the two actions of the binding operation; no
    binding operation at all when [bound] is false. *)
Definition service (bound : bool) (action action11 : string) : Definitions :=
  mkDefinitions "urn:quotes" ∅ []
    (mkSchema "urn:quotes" ∅ [] [] [] [] [])
    messages
    (mkPortType "QuotePort" [GetQuote])
    (mkBinding "QuoteBinding" "tns:QuotePort" (Some "document")
       (if bound then [mkBindingOperation "GetQuote" action action11] else [])).

Definition encoder (bound : bool) (action action11 : string) : goEncoder :=
  cacheOperations NewEncoder (service bound action action11).

Definition inParams : list parameter := [mkParameter "symbol" "string" "string"].
Definition outParams : list parameter :=
  [mkParameter "price" "float64" "float64"; mkParameter "err" "error" ""].

(** The text [writeSOAPFunc] writes for the operation. *)
Definition written (action action11 : string) : string :=
  match writeSOAPFunc (encoder true action action11) (service true action action11)
          GetQuote inParams outParams with
  | Done (text, _) => text
  | _ => ""
  end.

(** The function of the template [soapActionFuncT] for the operation. *)
Definition action_text : string :=
  concat_all
   ["func (c *quotePort) GetQuote(ctx context.Context,symbol string) (float64,error) {" +:+ nl;
    "    &symbol.Version = RequestVersion" +:+ nl;
    "    &symbol.TypeNamespace = Namespace" +:+ nl;
    "    &symbol.Party = c.cli.party" +:+ nl;
    nl;
    tab +:+ "req := struct {" +:+ nl;
    tab +:+ tab +:+ nl;
    tab +:+ tab +:+ tab +:+ " OperationGetQuoteRequest `xml:" +:+ dq +:+ "tns:GetQuote" +:+ dq +:+ "`" +:+ nl;
    tab +:+ tab +:+ nl;
    tab +:+ "}{" +:+ nl;
    tab +:+ tab +:+ "OperationGetQuoteRequest {" +:+ nl;
    tab +:+ tab +:+ tab +:+ "&symbol," +:+ nl;
    tab +:+ tab +:+ tab +:+ nl;
    tab +:+ tab +:+ "}," +:+ nl;
    tab +:+ "}" +:+ nl;
    nl;
    tab +:+ "res := struct {" +:+ nl;
    tab +:+ tab +:+ "XMLName  xml.Name `xml:" +:+ dq +:+ "Envelope" +:+ dq +:+ "`" +:+ nl;
    tab +:+ tab +:+ "XMLNSNS2 string   `xml:" +:+ dq +:+ "xmlns:ns2,attr" +:+ dq +:+ "`" +:+ nl;
    tab +:+ tab +:+ "XMLNSNS3 string   `xml:" +:+ dq +:+ "xmlns:ns3,attr" +:+ dq +:+ "`" +:+ nl;
    "        Body     struct {" +:+ nl;
    "            " +:+ nl;
    "                Price Price" +:+ nl;
    "            " +:+ nl;
    "        } `xml:" +:+ dq +:+ "Body" +:+ dq +:+ "`" +:+ nl;
    tab +:+ "}{}" +:+ nl;
    nl;
    "    err := c.cli.call(ctx, " +:+ dq +:+ "GetQuote" +:+ dq +:+ ", req, &res)" +:+ nl;
    "    if err != nil {" +:+ nl;
    tab +:+ tab +:+ "return nil, err" +:+ nl;
    "    }" +:+ nl;
    nl;
    "    return &res.Body.Price, nil" +:+ nl;
    "}" +:+ nl].

End ServiceExample.

(** *** A bound operation whose input message has no part *)
Module NoInputExample.

Definition Ping : Operation :=
  mkOperation "Ping" "" (Some "tns:PingRequest") (Some "tns:PingResponse").

Definition service : Definitions :=
  mkDefinitions "urn:ping" ∅ []
    (mkSchema "urn:ping" ∅ [] [] [] [] [])
    [mkMessage "PingRequest" [];
     mkMessage "PingResponse" [mkPart "result" "xsd:string" ""]]
    (mkPortType "PingPort" [Ping])
    (mkBinding "PingBinding" "tns:PingPort" (Some "document")
       [mkBindingOperation "Ping" "urn:Ping" ""]).

Definition encoder : goEncoder := cacheOperations NewEncoder service.

End NoInputExample.

(** The action [writeSOAPFunc] ends up with: the SOAP 1.2 action, or the
    SOAP 1.1 action when that one is empty. *)
Definition effective_action (bo : BindingOperation) : string :=
  if decide (BindingOperation_Action bo = "") then BindingOperation_Action11 bo
  else BindingOperation_Action bo.

(** [ge.soapOps[name] = bo] *)
Definition bind_operation (name : string) (bo : BindingOperation) (ge : goEncoder)
    : goEncoder :=
  set_operations (ge_funcs ge) (ge_funcnames ge) (ge_messages ge)
    (<[name := bo]> (ge_soapOps ge)) ge.

(** The statements of the template [soapActionFuncT] that write the version,
    the namespace and the party into the first input, and the one that takes
    the result out of the body of the reply. *)
Definition injects (text : string) : bool :=
  (Contains text ".Version = RequestVersion" &&
   Contains text ".TypeNamespace = Namespace" &&
   Contains text ".Party = c.cli.party" &&
   Contains text "return &res.Body.")%bool.

(** A template value with other [RoundTripType] and [Action] fields. *)
Definition with_actions (rt a : string) (v : templateValue) : templateValue :=
  mkTemplateValue rt a (tv_GoClientType v) (tv_Name v) (tv_OpName v)
    (tv_OpInputDataType v) (tv_InputNames v) (tv_OpResponseName v)
    (tv_OpResponseDataType v) (tv_OpOutputNames v) (tv_OpOutputPrefixes v)
    (tv_Input v) (tv_Output v) (tv_RetDef v) (tv_RPCStyle v).

(** *** A complex type whose only content is a wildcard *)
Module WildcardExample.

(** [<complexType name="Anything"><sequence><any/></sequence></complexType>] *)
Definition Anything : ComplexType :=
  mkComplexType "Anything" "urn:any" false "" [] []
    (Some (mkSequence [] [] [mkAnyElement 1 ""] [])) None None None.

(** The encoder once the type is registered. *)
Definition registered : goEncoder :=
  set_registry ∅ {[ "Anything" := 0%nat ]} {[ 0%nat := Anything ]} NewEncoder.

Definition struct_text : string :=
  "// Anything was auto-generated from WSDL." +:+ nl +:+
  "type Anything struct {" +:+ nl +:+ "}" +:+ nl +:+ nl.

Definition slice_text : string :=
  "// Anything was auto-generated from WSDL." +:+ nl +:+
  "type Anything []interface{}" +:+ nl +:+ nl.

End WildcardExample.

(** *** Operations without a binding operation *)
Module UnboundExample.

Definition Ping : Operation :=
  mkOperation "Ping" "" (Some "tns:PingRequest") (Some "tns:PingResponse").

(** The output has one part, of the WSDL type [t]. *)
Definition service (t : string) : Definitions :=
  mkDefinitions "urn:ping" ∅ []
    (mkSchema "urn:ping" ∅ [] [] [] [] [])
    [mkMessage "PingRequest" [mkPart "id" "xsd:int" ""];
     mkMessage "PingResponse" [mkPart "result" t ""]]
    (mkPortType "PingPort" [Ping])
    (mkBinding "PingBinding" "tns:PingPort" (Some "document") []).

Definition encoder (t : string) : goEncoder := cacheOperations NewEncoder (service t).

(** The text [writeGoClientFuncs] writes. *)
Definition client (t : string) : string :=
  match writeGoClientFuncs (encoder t) (service t) with
  | Done (_, text, _) => text
  | _ => ""
  end.

Definition stub_text (type value : string) : string :=
  "// Ping was auto-generated from WSDL." +:+ nl +:+
  "func Ping(ctx context.Context,id int) (" +:+ type +:+ ",error) {" +:+ nl +:+
  "return " +:+ value +:+ ",errors.New(" +:+ dq +:+ "not implemented" +:+ dq +:+ ")" +:+ nl +:+
  "}" +:+ nl +:+ nl.

End UnboundExample.

(** The registries of two encoders are the same: they differ at most in
    what is needed ([needsDateType] and the like) and written. *)
Definition same_catalog (ge ge' : goEncoder) : Prop :=
  ge_stypes ge' = ge_stypes ge ∧ ge_ctypes ge' = ge_ctypes ge ∧
  ge_elements ge' = ge_elements ge ∧ ge_funcs ge' = ge_funcs ge ∧
  ge_messages ge' = ge_messages ge ∧ ge_soapOps ge' = ge_soapOps ge.

(** *** A union with a member that is not a simple type of the schema *)
Module UnionExample.

Definition Size : SimpleType :=
  mkSimpleType "Size" "" None (Some (mkUnion "tns:Small Large" [])).
Definition Large : SimpleType :=
  mkSimpleType "Large" "" (Some (mkRestriction "xsd:int" [] [])) None.

Definition registered : goEncoder :=
  set_registry (<["Size" := Size]> (<["Large" := Large]> ∅)) ∅ ∅ NewEncoder.

End UnionExample.

(** ** Names, symbols and the remaining emitters: what the properties are
    stated with *)

(** ["Func"] written [k] times: what [fixFuncNameConflicts] appends. *)
Fixpoint func_suffix (k : nat) : string :=
  match k with
  | O => ""
  | S k => "Func" +:+ func_suffix k
  end.

(** A byte of a Go identifier: a letter, a digit or an underscore. *)
Definition is_ident (c : ascii) : bool := (is_letter c || is_digit c || is_underscore c)%bool.

Fixpoint all_bytes (p : ascii → bool) (s : string) : bool :=
  match s with
  | EmptyString => true
  | String c s' => (p c && all_bytes p s')%bool
  end.

Definition ident_or_space (c : ascii) : bool := (is_ident c || bool_decide (c = " "%char))%bool.

(** The first byte of a string is no lower-case letter. *)
Definition capitalised (s : string) : bool :=
  match s with
  | EmptyString => true
  | String c _ => negb (is_lower c)
  end.

(** *** A complex type that extends itself *)
Module CycleExample.

Definition Loop : ComplexType :=
  mkComplexType "Loop" "" false "" [] [] None None
    (Some (mkComplexContent (Some (mkExtension "tns:Loop" None None [])) None)) None.
Definition h : store := {[ 0%nat := Loop ]}.
Definition ctypes : gmap string addr := {[ "Loop" := 0%nat ]}.

End CycleExample.

(** The binding operation [bo] has no operation of the port type to go
    with, or that operation lacks its input, its output or one of the two
    messages. *)
Definition incomplete_operation (ge : goEncoder) (bo : BindingOperation) : Prop :=
  match ge_funcs ge !! BindingOperation_Name bo with
  | None => True
  | Some op =>
      match Operation_Input op, Operation_Output op with
      | Some im, Some om =>
          ge_messages ge !! trimns im = None ∨ ge_messages ge !! trimns om = None
      | _, _ => True
      end
  end.

(** An outcome of the emitters of the types: a result that leaves the
    registries as they are, or a panic. *)
Definition keeps_catalog {A : Type} (ge : goEncoder) (o : outcome A) (get : A → goEncoder)
    : Prop :=
  (∃ r, o = Done r ∧ same_catalog ge (get r)) ∨ (∃ msg, o = Fault msg).

(** *** A binding with an operation the port type does not have *)
Module OrphanExample.

Definition service : Definitions :=
  mkDefinitions "urn:ping" ∅ []
    (mkSchema "urn:ping" ∅ [] [] [] [] [])
    [mkMessage "PingRequest" [mkPart "text" "xsd:string" ""];
     mkMessage "PingResponse" [mkPart "result" "xsd:string" ""]]
    (mkPortType "PingPort"
       [mkOperation "Ping" "" (Some "tns:PingRequest") (Some "tns:PingResponse")])
    (mkBinding "PingBinding" "tns:PingPort" (Some "document")
       [mkBindingOperation "Ping" "urn:Ping" "";
        mkBindingOperation "Status" "urn:Status" ""]).

Definition encoder : goEncoder := cacheOperations NewEncoder service.

End OrphanExample.

(** *** The three complex types of [FlattenExample], registered *)
Definition flatten_registered : goEncoder :=
  set_registry ∅ FlattenExample.ctypes0 FlattenExample.h0 NewEncoder.

(** * Properties *)

(** ** Symbols and comments *)

Example trimns_prefixed : trimns "tns:Get:Version" = "Get:Version".
Proof. reflexivity. Qed.

Example goSymbol_snake : goSymbol "tns:gkst-server_getVersion" = "GkstServer_getVersion".
Proof. vm_compute. reflexivity. Qed.

Example goSymbol_digits : goSymbol "a1_-b 2c" = "AB2c".
Proof. vm_compute. reflexivity. Qed.

Example writeComments_default :
  writeComments "Namespace" "" = "// Namespace was auto-generated from WSDL." +:+ nl.
Proof. vm_compute. reflexivity. Qed.

(** ** The type flattener *)

Example flatten_Derived_runs :
  flatTypeElements FlattenExample.ctypes0 3 FlattenExample.h0 2%nat = Done FlattenExample.h1.
Proof. vm_compute. reflexivity. Qed.

Example flatten_Derived_fields :
  FlattenExample.field_names FlattenExample.h1 2%nat = ["id"; "b"; "id"; "a"; "id"; "name"].
Proof. vm_compute. reflexivity. Qed.

Lemma bind_Done_inv {A B : Type} (m : outcome A) (f : A → outcome B) (b : B) :
  m ≫= f = Done b → ∃ a, m = Done a ∧ f a = Done b.
Proof. destruct m as [a| |]; simpl; intros H; [eauto | discriminate..]. Qed.

Tactic Notation "inv_bind" hyp(H) "as" ident(x) ident(Hx) :=
  apply bind_Done_inv in H as (x & Hx & H).

Lemma deref_Done (h : store) (a : addr) (ct : ComplexType) :
  deref h a = Done ct ↔ h !! a = Some ct.
Proof. unfold deref. destruct (h !! a); split; intros H; congruence. Qed.

Lemma foldlM_Done_ind {A B : Type} (P : A → Prop) (f : A → B → outcome A) (l : list B) :
  (∀ a b a', P a → f a b = Done a' → P a') →
  ∀ a a', P a → foldlM f a l = Done a' → P a'.
Proof.
  intros Hf. induction l as [|b l IH]; simpl; intros a a' Ha H.
  - by inversion H; subst.
  - inv_bind H as a1 Ha1. eauto.
Qed.

Lemma cleared_le_refl h : cleared_le h h.
Proof. intros x ct Hx. eauto. Qed.

Lemma cleared_le_trans h1 h2 h3 :
  cleared_le h1 h2 → cleared_le h2 h3 → cleared_le h1 h3.
Proof.
  intros H12 H23 x ct Hx.
  destruct (H12 x ct Hx) as (ct2 & Hx2 & Hc2 & Hs2).
  destruct (H23 x ct2 Hx2) as (ct3 & Hx3 & Hc3 & Hs3).
  exists ct3. split_and!; auto.
Qed.

Lemma cleared_le_insert (h : store) a ct ct' :
  h !! a = Some ct →
  (cc_cleared ct → cc_cleared ct') → (sc_cleared ct → sc_cleared ct') →
  cleared_le h (<[a := ct']> h).
Proof.
  intros Ha Hc Hs x cx Hx. destruct (decide (x = a)) as [->|Hne].
  - rewrite lookup_insert_eq. exists ct'. rewrite Ha in Hx. by inversion Hx; subst.
  - rewrite lookup_insert_ne by done. eauto.
Qed.

Lemma same_content_cleared ct ct' :
  same_content ct ct' →
  (cc_cleared ct → cc_cleared ct') ∧ (sc_cleared ct → sc_cleared ct').
Proof. unfold same_content, cc_cleared, sc_cleared. intros [-> ->]. done. Qed.

Lemma upd_Sequence_Done f ct ct' :
  upd_Sequence f ct = Done ct' →
  ∃ s, ComplexType_Sequence ct = Some s ∧ ct' = set_Sequence (Some (f s)) ct.
Proof.
  unfold upd_Sequence. destruct (ComplexType_Sequence ct); intros H; inversion H. eauto.
Qed.

Lemma upd_Sequence_content f ct ct' :
  upd_Sequence f ct = Done ct' →
  same_content ct ct' ∧ is_Some (ComplexType_Sequence ct') ∧
  ComplexType_Choice ct' = ComplexType_Choice ct.
Proof.
  intros H. apply upd_Sequence_Done in H as (s & Hs & ->). by split_and!.
Qed.

Lemma step_content (P : Prop) (d : Decision P) f (c c' : ComplexType) :
  (if d then Done c else upd_Sequence f c) = Done c' →
  same_content c c' ∧ ComplexType_Choice c' = ComplexType_Choice c ∧
  (is_Some (ComplexType_Sequence c) → is_Some (ComplexType_Sequence c')).
Proof.
  destruct d; intros Hc.
  - by inversion Hc; subst.
  - apply upd_Sequence_content in Hc as (? & ? & ?). done.
Qed.

Lemma merge_sequence_content ct seq ct' :
  merge_sequence ct seq = Done ct' →
  same_content ct ct' ∧ ComplexType_Choice ct' = ComplexType_Choice ct ∧
  (is_Some (ComplexType_Sequence ct) → is_Some (ComplexType_Sequence ct')).
Proof.
  unfold merge_sequence. intros H. inv_bind H as c1 Hx. inv_bind H as c2 Hx0.
  apply step_content in Hx as ([? ?] & ? & ?).
  apply step_content in Hx0 as ([? ?] & ? & ?).
  apply step_content in H as ([? ?] & ? & ?).
  unfold same_content. split_and!; try congruence. auto.
Qed.

Lemma flatComplexContent_Done ctypes ct ct' :
  flatComplexContent ctypes ct = Done ct' →
  cc_cleared ct' ∧
  ComplexType_SimpleContent ct' = ComplexType_SimpleContent ct ∧
  ComplexType_Choice ct' = ComplexType_Choice ct ∧
  (is_Some (ComplexType_Sequence ct) → is_Some (ComplexType_Sequence ct')).
Proof.
  unfold flatComplexContent, cc_cleared.
  destruct (ComplexType_ComplexContent ct) as [cc|] eqn:Hcc.
  2:{ intros H; inversion H; subst. rewrite Hcc. done. }
  destruct (ComplexContent_Extension cc) as [ext|] eqn:Hext.
  2:{ intros H; inversion H; subst. rewrite Hcc. done. }
  intros H. inv_bind H as x Hx.
  set (c0 := set_ComplexContent _ ct) in *.
  assert (cc_cleared c0 ∧ ComplexType_SimpleContent c0 = ComplexType_SimpleContent ct
          ∧ ComplexType_Choice c0 = ComplexType_Choice ct
          ∧ ComplexType_Sequence c0 = ComplexType_Sequence ct) as (Hc0 & Hs0 & Hch0 & Hq0).
  { unfold c0, cc_cleared. simpl. by destruct (ComplexContent_Restriction cc). }
  assert (same_content c0 x ∧ ComplexType_Choice x = ComplexType_Choice c0 ∧
          (is_Some (ComplexType_Sequence c0) → is_Some (ComplexType_Sequence x)))
    as ([Hxc Hxs] & Hxch & Hxq).
  { destruct (decide (Extension_Base ext = "")).
    - by inversion Hx; subst.
    - destruct (ctypes !! trimns (Extension_Base ext)).
      + apply upd_Sequence_content in Hx as (? & ? & ?). done.
      + by inversion Hx; subst. }
  revert H.
  set (c1 := set_Attributes _ x).
  assert (cc_cleared c1 ∧ ComplexType_SimpleContent c1 = ComplexType_SimpleContent ct ∧
          ComplexType_Choice c1 = ComplexType_Choice ct ∧
          (is_Some (ComplexType_Sequence ct) → is_Some (ComplexType_Sequence c1))) as Hc1.
  { unfold c1, cc_cleared in *. simpl. rewrite Hxc, Hxs, Hxch, Hs0, Hch0, <-Hq0. done. }
  clearbody c1. intros H.
  eapply (foldlM_Done_ind
            (λ c, cc_cleared c ∧ ComplexType_SimpleContent c = ComplexType_SimpleContent ct ∧
                  ComplexType_Choice c = ComplexType_Choice ct ∧
                  (is_Some (ComplexType_Sequence ct) → is_Some (ComplexType_Sequence c))));
    [ | exact Hc1 | exact H ].
  intros c s c' (Hc & Hs & Hch & Hq) Hm.
  apply merge_sequence_content in Hm as ([Hmc Hms] & Hch' & Hmq).
  unfold cc_cleared in *. rewrite Hmc, Hms, Hch'. split_and!; auto.
Qed.

Lemma flatSimpleContent_Done ctypes ct ct' :
  flatSimpleContent ctypes ct = Done ct' →
  sc_cleared ct' ∧
  ComplexType_ComplexContent ct' = ComplexType_ComplexContent ct ∧
  ComplexType_Choice ct' = ComplexType_Choice ct ∧
  (is_Some (ComplexType_Sequence ct) → is_Some (ComplexType_Sequence ct')).
Proof.
  unfold flatSimpleContent, sc_cleared.
  destruct (ComplexType_SimpleContent ct) as [sc|] eqn:Hsc.
  2:{ intros H; inversion H; subst. rewrite Hsc. done. }
  destruct (SimpleContent_Extension sc) as [ext|] eqn:Hext.
  2:{ intros H; inversion H; subst. rewrite Hsc. done. }
  destruct (decide (Extension_Base ext = "")).
  { intros H; inversion H; subst; simpl. by destruct (SimpleContent_Restriction sc). }
  destruct (ctypes !! trimns (Extension_Base ext)).
  - intros H. apply upd_Sequence_Done in H as (s & Hs & ->). simpl.
    by destruct (SimpleContent_Restriction sc).
  - intros H; inversion H; subst; simpl. by destruct (SimpleContent_Restriction sc).
Qed.

Lemma flatFields_flat (rec : store → addr → outcome store) h a h' :
  (∀ h v h', rec h v = Done h' → cleared_le h h') →
  flatFields rec h a = Done h' →
  cleared_le h h' ∧
  ∀ ct, h !! a = Some ct → cc_cleared ct → sc_cleared ct →
        ∃ ct', h' !! a = Some ct' ∧ flat ct'.
Proof.
  intros Hrec H. unfold flatFields in H.
  inv_bind H as ct0 Hct0. apply deref_Done in Hct0.
  inv_bind H as p Hp. destruct p as [h1 red].
  inv_bind H as ct1 Hct1. apply deref_Done in Hct1.
  assert (cleared_le h h1) as Hle1.
  { destruct (ComplexType_Sequence ct0) as [seq|].
    2:{ inversion Hp; subst. apply cleared_le_refl. }
    inv_bind Hp as h2 Hh2. inv_bind Hp as ct2 Hct2.
    apply deref_Done in Hct2.
    destruct (ComplexType_Sequence ct2) as [seq2|]; [|discriminate].
    inversion Hp; subst; clear Hp.
    assert (cleared_le h h2) as Hle2.
    { eapply (foldlM_Done_ind (cleared_le h)); [ | apply cleared_le_refl | exact Hh2 ].
      intros hh v hh' Hhh Hm. unfold merge_fragment in Hm.
      inv_bind Hm as h3 Hh3. inv_bind Hm as cv Hcv. inv_bind Hm as ca Hca.
      inversion Hm; subst; clear Hm.
      apply deref_Done in Hcv, Hca.
      eapply cleared_le_trans; [exact Hhh|].
      eapply cleared_le_trans; [eapply Hrec; exact Hh3|].
      eapply cleared_le_insert; [exact Hca|..]; done. }
    eapply cleared_le_trans; [exact Hle2|].
    eapply cleared_le_insert; [exact Hct2|..]; done. }
  inversion H; subst; clear H.
  split.
  - eapply cleared_le_trans; [exact Hle1|].
    eapply cleared_le_insert; [exact Hct1|..];
      unfold cc_cleared, sc_cleared;
      simpl; destruct (ComplexType_Choice ct1); simpl; auto.
  - intros ct Ha Hcc Hsc. rewrite lookup_insert_eq. eexists; split; [done|].
    destruct (Hle1 a ct Ha) as (ct1' & Ha1 & Hcc1 & Hsc1).
    rewrite Hct1 in Ha1. inversion Ha1; subst ct1'.
    specialize (Hcc1 Hcc). specialize (Hsc1 Hsc).
    unfold flat, cc_cleared, sc_cleared in *.
    simpl; destruct (ComplexType_Choice ct1); simpl; split_and!; auto.
Qed.

Lemma flatTypeElements_flat ctypes fuel h a h' :
  flatTypeElements ctypes fuel h a = Done h' →
  cleared_le h h' ∧ ∃ ct', h' !! a = Some ct' ∧ flat ct'.
Proof.
  revert h a h'. induction fuel as [|fuel IH]; intros h a h' H; [discriminate|].
  simpl in H. inv_bind H as ct Hct. apply deref_Done in Hct.
  inv_bind H as ct1 Hct1. inv_bind H as ct2 Hct2.
  apply flatComplexContent_Done in Hct1 as (Hcc1 & Hsc1 & _ & _).
  apply flatSimpleContent_Done in Hct2 as (Hsc2 & Hcc2 & _ & _).
  assert (cc_cleared ct2) as Hc2.
  { unfold cc_cleared in *. rewrite Hcc2. exact Hcc1. }
  apply flatFields_flat in H as [Hle Hflat]; [|intros ? ? ? Hr; apply IH in Hr as [? _]; assumption].
  split.
  - eapply cleared_le_trans; [|exact Hle].
    eapply cleared_le_insert; [exact Hct|..]; done.
  - eapply Hflat; [apply lookup_insert_eq|done..].
Qed.

Lemma set_fields_eta (ct : ComplexType) :
  set_Choice None
    (set_Sequence None
       (set_AllElements (ComplexType_AllElements ct)
          (set_Sequence (Some emptySequence) ct))) =
  set_Choice None (set_Sequence None ct).
Proof. by destruct ct. Qed.

(** A flat complex type is left as it is. *)
Lemma flatTypeElements_flat_noop ctypes fuel (h : store) a ct :
  h !! a = Some ct → flat ct → flatTypeElements ctypes (S fuel) h a = Done h.
Proof.
  intros Ha (Hseq & Hch & Hcc & Hsc). simpl.
  unfold deref at 1. rewrite Ha. simpl. rewrite Hseq.
  set (ct1 := set_Sequence (Some emptySequence) ct).
  assert (flatComplexContent ctypes ct1 = Done ct1) as ->.
  { unfold flatComplexContent, cc_cleared in *. simpl.
    destruct (ComplexType_ComplexContent ct) as [cc|]; [|done]. by rewrite Hcc. }
  simpl.
  assert (flatSimpleContent ctypes ct1 = Done ct1) as ->.
  { unfold flatSimpleContent, sc_cleared in *. simpl.
    destruct (ComplexType_SimpleContent ct) as [sc|]; [|done]. by rewrite Hsc. }
  simpl. unfold flatFields, deref. rewrite lookup_insert_eq. simpl.
  rewrite lookup_insert_eq. simpl. rewrite lookup_insert_eq. simpl.
  rewrite Hch. f_equal. rewrite !insert_insert_eq.
  apply insert_id. rewrite Ha. f_equal.
  unfold ct1. rewrite set_fields_eta. destruct ct; simpl in *; by subst.
Qed.

(** C8. Flattening is idempotent per complex type: when a pass over the
    complex type at [a] returns, the type at [a] has its shape markers
    cleared (no sequence, no choice, no extension left in its complex or
    simple content), and a second pass returns the very same store: the flat
    field list, the attributes and the cleared markers of the type, and
    every other type, are unchanged. *)
Theorem flatTypeElements_idempotent ctypes fuel fuel' (h h' : store) (a : addr) :
  flatTypeElements ctypes fuel h a = Done h' →
  (∃ ct', h' !! a = Some ct' ∧ flat ct') ∧
  flatTypeElements ctypes (S fuel') h' a = Done h'.
Proof.
  intros H. apply flatTypeElements_flat in H as (_ & ct' & Ha & Hflat).
  split; [eauto|]. by eapply flatTypeElements_flat_noop.
Qed.

Lemma flatTypeElements_idempotent_witness :
  flatTypeElements FlattenExample.ctypes0 1 FlattenExample.h1 2%nat = Done FlattenExample.h1.
Proof.
  apply (flatTypeElements_idempotent FlattenExample.ctypes0 3 0
           FlattenExample.h0 FlattenExample.h1 2%nat).
  vm_compute. reflexivity.
Defined.

(** *** The scope of the seen-names set *)

Lemma flatElementFields_cons elements el l red :
  flatElementFields elements (el :: l) red =
  flatElementFields (flatElementField elements el red).1 l
    (flatElementField elements el red).2.
Proof.
  unfold flatElementFields. simpl. by destruct (flatElementField elements el red).
Qed.

Lemma flatElementFields_app elements l1 l2 red :
  flatElementFields elements (l1 ++ l2) red =
  flatElementFields (flatElementFields elements l1 red).1 l2
    (flatElementFields elements l1 red).2.
Proof.
  unfold flatElementFields. rewrite foldl_app.
  by destruct (foldl _ (elements, red) l1).
Qed.

(** The set of seen names drops exactly the fields whose name an earlier
    field of the same list carries. *)
Lemma flatElementFields_fragment elements l before :
  flatElementFields elements l (list_to_set before) =
  (elements ++ fragment_fields before l,
   list_to_set (before ++ (Element_Name <$> l))).
Proof.
  revert elements before. induction l as [|el l IH]; intros elements before.
  - simpl. by rewrite !app_nil_r.
  - rewrite flatElementFields_cons. unfold flatElementField. simpl.
    assert (list_to_set (before ++ [Element_Name el]) =@{gset string}
            {[Element_Name el]} ∪ list_to_set before) as Hset.
    { rewrite list_to_set_app_L. simpl. set_solver. }
    destruct (decide (Element_Name el ∈ list_to_set before)) as [Hin|Hnin]; simpl.
    + rewrite decide_True by (by apply elem_of_list_to_set in Hin).
      assert (list_to_set before =@{gset string} list_to_set (before ++ [Element_Name el])) as ->.
      { rewrite Hset. set_solver. }
      rewrite IH. simpl. by rewrite <-app_assoc.
    + rewrite decide_False by (by rewrite <-(elem_of_list_to_set (C:=gset string))).
      rewrite <-Hset, IH. simpl. by rewrite <-!app_assoc.
Qed.

Lemma flatElementFields_fresh elements l :
  (flatElementFields elements l ∅).1 = elements ++ fragment_fields [] l.
Proof.
  change (∅ : gset string) with (list_to_set (C:=gset string) []).
  by rewrite flatElementFields_fragment.
Qed.

Lemma fragment_fields_app before l1 l2 :
  fragment_fields before (l1 ++ l2) =
  fragment_fields before l1 ++ fragment_fields (before ++ (Element_Name <$> l1)) l2.
Proof.
  revert before. induction l1 as [|el l1 IH]; intros before; simpl.
  - by rewrite app_nil_r.
  - rewrite IH, <-!app_assoc. done.
Qed.

(** What [fragment_fields] keeps: the fields no earlier field shares its name
    with, in their order. *)
Lemma fragment_fields_lookup before l el :
  el ∈ fragment_fields before l →
  el ∈ l ∧ Element_Name el ∉ before.
Proof.
  revert before. induction l as [|x l IH]; intros before; simpl.
  - by intros ?%elem_of_nil.
  - rewrite elem_of_app. intros [Hin|Hin].
    + destruct (decide (Element_Name x ∈ before)); [by apply elem_of_nil in Hin|].
      apply list_elem_of_singleton in Hin as ->. split; [left|done].
    + apply IH in Hin as [? Hn]. split; [by right|].
      intros ?. apply Hn, elem_of_app. by left.
Qed.

Lemma fragment_fields_NoDup before l :
  NoDup (Element_Name <$> fragment_fields before l).
Proof.
  revert before. induction l as [|x l IH]; intros before; simpl; [constructor|].
  destruct (decide (Element_Name x ∈ before)); simpl; [apply IH|].
  constructor; [|apply IH].
  intros (y & Hy & Hin)%list_elem_of_fmap.
  apply fragment_fields_lookup in Hin as [_ Hn].
  apply Hn, elem_of_app. right. rewrite Hy. by apply list_elem_of_singleton.
Qed.

Lemma named_nil n l :
  (∀ y, y ∈ l → Element_Name y ≠ n) → named n l = [].
Proof.
  unfold named. induction l as [|x l IH]; intros Hl; [done|].
  rewrite filter_cons_False by (apply Hl; left).
  apply IH. intros y Hy. apply Hl. by right.
Qed.

Lemma fragment_fields_first el l :
  named (Element_Name el) (fragment_fields [] (el :: l)) = [el].
Proof.
  simpl. unfold named. rewrite filter_cons_True by done. f_equal.
  apply named_nil. intros y Hy.
  apply fragment_fields_lookup in Hy as [_ Hn]. intros Heq. apply Hn.
  rewrite Heq. by apply list_elem_of_singleton.
Qed.

Lemma flatTypeElements_S ctypes fuel (h : store) a :
  flatTypeElements ctypes (S fuel) h a =
  (ct ← deref h a;
   ct ← prepare ctypes ct;
   flatFields (flatTypeElements ctypes fuel) (<[a := ct]> h) a).
Proof.
  simpl. unfold prepare. destruct (deref h a) as [ct| |]; simpl; [|done..].
  by destruct (flatComplexContent ctypes _).
Qed.

Lemma deref_insert (h : store) a ct : deref (<[a := ct]> h) a = Done ct.
Proof. unfold deref. by rewrite lookup_insert_eq. Qed.

Lemma foldlM_cons {A B : Type} (f : A → B → outcome A) a b l :
  foldlM f a (b :: l) = (a' ← f a b; foldlM f a' l).
Proof. reflexivity. Qed.

Arguments flatTypeElements : simpl never.

Lemma merge_fragments_flat ctypes fuel a (h : store) vs ct0 :
  (∀ v, v ∈ vs → v ≠ a ∧ ∃ cv, h !! v = Some cv ∧ flat cv) →
  ∃ ct',
    foldlM (merge_fragment (flatTypeElements ctypes (S fuel)) a) (<[a := ct0]> h) vs
      = Done (<[a := ct']> h) ∧
    ComplexType_AllElements ct' =
      ComplexType_AllElements ct0 ++
      mjoin ((λ v, fragment_fields [] (fields_at h v)) <$> vs) ∧
    ComplexType_Sequence ct' = ComplexType_Sequence ct0 ∧
    ComplexType_Choice ct' = ComplexType_Choice ct0.
Proof.
  revert ct0. induction vs as [|v vs IH]; intros ct0 Hvs.
  - exists ct0. simpl. by rewrite app_nil_r.
  - destruct (Hvs v) as (Hne & cv & Hv & Hflat); [left|].
    set (ct1 := set_AllElements
                  (ComplexType_AllElements ct0 ++ fragment_fields [] (fields_at h v))
                  (set_Attributes
                     (flatAttributeFields (ComplexType_Attributes ct0)
                        (ComplexType_Attributes cv) ∅).1 ct0)).
    assert (merge_fragment (flatTypeElements ctypes (S fuel)) a (<[a := ct0]> h) v
            = Done (<[a := ct1]> h)) as Hstep.
    { assert (a ≠ v) as Hne' by congruence.
      unfold merge_fragment.
      rewrite (flatTypeElements_flat_noop ctypes fuel _ v cv)
        by (by rewrite ?lookup_insert_ne); simpl.
      unfold deref. rewrite (lookup_insert_ne _ a v) by done. rewrite Hv. simpl.
      rewrite lookup_insert_eq. simpl. rewrite insert_insert_eq.
      rewrite flatElementFields_fresh. unfold ct1, fields_at. rewrite Hv.
      done. }
    rewrite foldlM_cons, Hstep. simpl.
    edestruct (IH ct1) as (ct' & Hrun & Hfields & Hseq & Hch);
      [intros w Hw; apply Hvs; by right|].
    exists ct'. split; [exact Hrun|].
    rewrite Hfields, Hseq, Hch. simpl. split; [|done].
    by rewrite <-app_assoc.
Qed.

Lemma prepare_Sequence ctypes ct ct2 :
  prepare ctypes ct = Done ct2 → is_Some (ComplexType_Sequence ct2).
Proof.
  unfold prepare. intros H. inv_bind H as ct1 Hct1.
  apply flatComplexContent_Done in Hct1 as (_ & _ & _ & Hs1).
  apply flatSimpleContent_Done in H as (_ & _ & _ & Hs2).
  apply Hs2, Hs1. destruct (ComplexType_Sequence ct) eqn:Hs; simpl; [|eauto].
  rewrite Hs. eauto.
Qed.

(** Every field of a fragment has a field of its name among those kept. *)
Lemma fragment_fields_named el l :
  el ∈ l → named (Element_Name el) (fragment_fields [] l) ≠ [].
Proof.
  assert (∀ before, Element_Name el ∉ before → el ∈ l →
            named (Element_Name el) (fragment_fields before l) ≠ []) as Hgen.
  2:{ apply Hgen. by intros ?%elem_of_nil. }
  induction l as [|x l IH]; intros before Hb Hin; [by apply elem_of_nil in Hin|].
  simpl. unfold named. rewrite filter_app.
  destruct (decide (Element_Name x = Element_Name el)) as [Heq|Hne].
  - rewrite decide_False by (by rewrite Heq).
    rewrite filter_cons_True by done. done.
  - apply elem_of_cons in Hin as [->|Hin]; [done|].
    intros Hnil. apply app_eq_nil in Hnil as [_ Hnil].
    eapply IH; [|exact Hin|exact Hnil].
    rewrite elem_of_app, list_elem_of_singleton. intros [?|?]; [done|congruence].
Qed.

Lemma named_mjoin_two n (ls : list (list Element)) i j li lj :
  (i < j)%nat → ls !! i = Some li → ls !! j = Some lj →
  named n li ≠ [] → named n lj ≠ [] →
  (2 ≤ List.length (named n (mjoin ls)))%nat.
Proof.
  intros Hij Hi Hj Hni Hnj.
  rewrite <-(take_drop_middle ls i li Hi).
  assert (drop (S i) ls !! (j - S i)%nat = Some lj) as Hj'.
  { rewrite lookup_drop. rewrite <-Hj. f_equal. lia. }
  rewrite <-(take_drop_middle _ _ lj Hj').
  unfold named in *. rewrite join_app. simpl. rewrite join_app. simpl.
  rewrite !filter_app, !length_app.
  destruct (filter _ li); [done|]. destruct (filter _ lj); [done|]. simpl. lia.
Qed.

(** Flattening returns when the queued fragments are flat already.  Let
    [ct2] be the complex type at [a] once its extensions are merged into its
    sequence ([prepare]), and let the queued fragments (base types and nested
    complex types) be flat, so that flattening them again leaves them as they
    are.  Then flattening [a] returns, and the flat field list of [a] is: the
    fields it had, then for each queued fragment in turn the fields of that
    fragment with later same-named fields of that fragment dropped, then the
    own fields of the type with later same-named own fields dropped.  No
    fragment is deduplicated against another: when two queued fragments both
    have a field named [n], at least two fields named [n] are kept. *)
Lemma flatTypeElements_flat_fragments ctypes fuel (h : store) (a : addr)
    (ct ct2 : ComplexType) :
  h !! a = Some ct →
  prepare ctypes ct = Done ct2 →
  (∀ v, v ∈ queued_fragments ct2 → v ≠ a ∧ ∃ cv, h !! v = Some cv ∧ flat cv) →
  ∃ h', flatTypeElements ctypes (S (S fuel)) h a = Done h' ∧
    fields_at h' a =
      ComplexType_AllElements ct2 ++
      mjoin ((λ v, fragment_fields [] (fields_at h v)) <$> queued_fragments ct2) ++
      fragment_fields [] (own_fields ct2) ∧
    ∀ i j vi vj ei ej,
      (i < j)%nat →
      queued_fragments ct2 !! i = Some vi → queued_fragments ct2 !! j = Some vj →
      ei ∈ fields_at h vi → ej ∈ fields_at h vj →
      Element_Name ei = Element_Name ej →
      (2 ≤ List.length (named (Element_Name ei) (fields_at h' a)))%nat.
Proof.
  intros Ha Hprep Hq.
  destruct (prepare_Sequence _ _ _ Hprep) as [seq Hseq].
  assert (queued_fragments ct2 = Sequence_ComplexTypes seq) as Hqf
    by (unfold queued_fragments; by rewrite Hseq).
  destruct (merge_fragments_flat ctypes fuel a h (Sequence_ComplexTypes seq) ct2)
    as (ct3 & Hrun & Hfields & Hseq3 & Hch3); [by rewrite <-Hqf|].
  assert (∃ h', flatTypeElements ctypes (S (S fuel)) h a = Done h' ∧
            fields_at h' a =
              ComplexType_AllElements ct2 ++
              mjoin ((λ v, fragment_fields [] (fields_at h v)) <$> queued_fragments ct2) ++
              fragment_fields [] (own_fields ct2)) as (h' & Hdone & Hres).
  { eexists. split.
    - rewrite flatTypeElements_S.
      apply deref_Done in Ha. rewrite Ha. simpl. rewrite Hprep. simpl.
      unfold flatFields. rewrite deref_insert. simpl.
      rewrite Hseq, Hrun. simpl.
      rewrite deref_insert. simpl. rewrite Hseq3, Hseq. simpl.
      rewrite deref_insert. simpl. reflexivity.
    - unfold fields_at at 1. rewrite lookup_insert_eq.
      rewrite Hch3, Hqf. unfold own_fields. rewrite Hseq.
      destruct (ComplexType_Choice ct2) as [c|]; simpl.
      + rewrite <-flatElementFields_app, flatElementFields_fresh.
        by rewrite Hfields, <-!app_assoc.
      + rewrite flatElementFields_fresh.
        by rewrite Hfields, app_nil_r, <-!app_assoc. }
  exists h'. split; [done|]. split; [done|].
  - intros i j vi vj ei ej Hij Hi Hj Hei Hej Hname. rewrite Hres.
    assert (∀ l1 l2 l3 : list Element,
              (2 ≤ List.length (named (Element_Name ei) l2))%nat →
              (2 ≤ List.length (named (Element_Name ei) (l1 ++ l2 ++ l3)))%nat) as Hmid.
    { intros l1 l2 l3. unfold named. rewrite !filter_app, !length_app. lia. }
    apply Hmid.
    eapply (named_mjoin_two _ _ i j); [exact Hij| | | |].
    + rewrite list_lookup_fmap, Hi. reflexivity.
    + rewrite list_lookup_fmap, Hj. reflexivity.
    + by apply fragment_fields_named.
    + rewrite Hname. by apply fragment_fields_named.
Qed.

Example flatten_Derived_over_flat_bases :
  (flatTypeElements FlattenExample.ctypes0 2 FlattenExample.hb 2%nat ≫= λ h,
   Done (FlattenExample.field_names h 2%nat)) =
  Done ["id"; "b"; "id"; "a"; "id"; "name"].
Proof. vm_compute. reflexivity. Qed.












(** *** Flattening returns *)












Section Returns.
Variable ctypes : gmap string addr.
Variable rank : addr → nat.



End Returns.






(** The fields of [Derived], flattened in the store where its base types
    are not flat yet, with the least fuel: [id] is there three times, once
    for each of the two base types and once for the type itself. *)
Example flatten_Derived_least_fuel :
  (flatTypeElements FlattenExample.ctypes0 2 FlattenExample.h0 2%nat ≫= λ h,
   Done (FlattenExample.field_names h 2%nat)) =
  Done ["id"; "b"; "id"; "a"; "id"; "name"].
Proof. vm_compute. reflexivity. Qed.

(** ** The driver *)

Example Encode_noDefinitions :
  Encode EncodeExample.CopyEnrich EncodeExample.nowhere EncodeExample.BindingPackageName
    EncodeExample.catalogTypes EncodeExample.parseFile EncodeExample.gofmtPath
    EncodeExample.gofmt EncodeExample.in_order 1 NewEncoder (Some EncodeExample.noDefinitions)
  = Done (None, EncodeExample.generated,
          [ParseFile EncodeExample.generated;
           Gofmt "/usr/local/go/bin/gofmt" EncodeExample.generated]).
Proof. vm_compute. reflexivity. Qed.

(** The sorted traversals do not depend on the order the map yields its keys
    in: any two orders of the same keys are sorted into the same list. *)
Lemma sort_strings_order (l1 l2 : list string) :
  l1 ≡ₚ l2 → sort_strings l1 = sort_strings l2.
Proof.
  intros Hperm. unfold sort_strings.
  apply (Sorted_unique String.le); [apply Sorted_merge_sort, _..|].
  by rewrite !merge_sort_Permutation.
Qed.

Lemma rotate_Permutation {A : Type} (n : nat) (l : list A) : rotate n l ≡ₚ l.
Proof.
  unfold rotate. rewrite Permutation_app_comm. by rewrite take_drop.
Qed.

Lemma ranges_ok_in_order : ranges_ok EncodeExample.in_order.
Proof. by split_and!. Qed.

Lemma ranges_ok_rotated : ranges_ok EncodeExample.rotated.
Proof. split_and!; try done. intros l. apply rotate_Permutation. Qed.

Lemma append_assoc (a b c : string) : (a +:+ b) +:+ c = a +:+ (b +:+ c).
Proof.
  induction a as [|x a IH]; [done|].
  change (String x ((a +:+ b) +:+ c) = String x (a +:+ (b +:+ c))). by rewrite IH.
Qed.

Lemma HasPrefix_append (p x : string) : HasPrefix (p +:+ x) p = true.
Proof.
  induction p as [|c p IH]; [done|].
  change (HasPrefix (String c (p +:+ x)) (String c p) = true).
  simpl. by rewrite decide_True.
Qed.

Lemma HasPrefix_app (p x y : string) : HasPrefix ((p +:+ x) +:+ y) p = true.
Proof.
  induction p as [|c p IH]; [done|].
  change (HasPrefix (String c ((p +:+ x) +:+ y)) (String c p) = true).
  simpl. by rewrite decide_True.
Qed.

Lemma header_package rng ge d b :
  HasPrefix (header rng ge d +:+ b) "package " = true.
Proof. unfold header. apply HasPrefix_app. Qed.

Section EncodeProperties.

Variable CopyEnrich : Element → Element → Element.
Variable w : World.
Variable BindingPackageName : Binding → string.
Variable catalogTypes : goEncoder → Definitions → goEncoder.
Variable parseFile : string → error.
Variable gofmtPath : string + string.
Variable gofmt : string → string → string * string * error.
Variable rng : ranges.

(** When [encode] returns without an error, the text starts with the
    package clause: it is never empty. *)
Lemma encode_package fuel ge d ge' b :
  encode CopyEnrich w catalogTypes rng fuel ge d = Done (ge', b, None) →
  HasPrefix b "package " = true.
Proof.
  unfold encode. intros H. inv_bind H as r Hr.
  destruct r as [[[ge1 d1] b1] [e|]]; inversion H; subst.
  apply header_package.
Qed.

(** [Encode] on nil definitions returns a nil error, writes nothing and
    calls neither the parser nor the formatter.  On any other definitions a
    nil error means that [encode] returned a text without an error, that
    this text, which starts with the package clause, was parsed and
    formatted, and that what the formatter wrote is what [Encode] wrote: the
    test [b.Len() == 0] of [Encode] never succeeds. *)
Lemma Encode_nil_or_formatted fuel ge :
  Encode CopyEnrich w BindingPackageName catalogTypes parseFile gofmtPath gofmt rng
    fuel ge None = Done (None, "", []) ∧
  ∀ d out calls,
    Encode CopyEnrich w BindingPackageName catalogTypes parseFile gofmtPath gofmt rng
      fuel ge (Some d) = Done (None, out, calls) →
    ∃ path ge' b,
      encode CopyEnrich w catalogTypes rng fuel
        match ge_packageName ge with
        | None => set_packageName (Some (BindingPackageName (Definitions_Binding d))) ge
        | Some _ => ge
        end d = Done (ge', b, None) ∧
      HasPrefix b "package " = true ∧
      gofmtPath = inl path ∧
      calls = [ParseFile b; Gofmt path b] ∧
      out = (gofmt path b).1.1.
Proof.
  split; [reflexivity|].
  intros d out calls H. unfold Encode in H.
  inv_bind H as r Hr. destruct r as [[ge1 b] [e|]]; [discriminate|].
  pose proof (encode_package _ _ _ _ _ Hr) as Hpkg.
  destruct (decide (String.length b = 0%nat)) as [Hlen|_].
  { destruct b; [discriminate Hpkg|discriminate Hlen]. }
  destruct (parseFile b); [discriminate|].
  destruct gofmtPath as [path|]; [|discriminate].
  exists path, ge1, b. destruct (gofmt path b) as [[stdout stderr] [e|]]; [discriminate|].
  inversion H; subst. done.
Qed.

End EncodeProperties.


(** C1.  Two runs of [encode] on the same definitions, one for each of two
    orders in which the map of needed packages may yield its two keys, write
    different texts: the import lines are swapped. *)
Theorem encode_import_order :
  ranges_ok EncodeExample.in_order ∧ ranges_ok EncodeExample.rotated ∧
  (∃ ge, encode EncodeExample.CopyEnrich EncodeExample.nowhere EncodeExample.catalogTypes
           EncodeExample.in_order 1 (set_packageName (Some "main") NewEncoder)
           EncodeExample.noDefinitions
         = Done (ge, EncodeExample.generated, None)) ∧
  (∃ ge, encode EncodeExample.CopyEnrich EncodeExample.nowhere EncodeExample.catalogTypes
           EncodeExample.rotated 1 (set_packageName (Some "main") NewEncoder)
           EncodeExample.noDefinitions
         = Done (ge, EncodeExample.generated_rotated, None)) ∧
  EncodeExample.generated ≠ EncodeExample.generated_rotated.
Proof.
  split; [apply ranges_ok_in_order|]. split; [apply ranges_ok_rotated|].
  split; [|split].
  - eexists. vm_compute. reflexivity.
  - eexists. vm_compute. reflexivity.
  - vm_compute. discriminate.
Qed.

(** ** The import resolver *)

Lemma includeImport_file_cycle fuel st :
  "a.xsd" ∉ ge_importedSchemas (is_ge st) →
  includeImport ImportExample.files fuel st "a.xsd" = Timeout.
Proof.
  revert st. induction fuel as [|fuel IH]; intros st Hst; [reflexivity|].
  simpl. rewrite decide_False by (intros [?|?]; done).
  unfold importRemote. rewrite decide_False by done. simpl.
  rewrite IH by done. reflexivity.
Qed.

(** C2.  A local file is never marked as imported.  When the schema imports
    the file [a.xsd], which includes itself, the resolver does not return,
    whatever the fuel; when it imports the file [b.xsd] twice, the file is
    opened twice.  *)
Theorem importParts_local_files :
  (∀ fuel, importParts ImportExample.files fuel (ImportExample.start ["a.xsd"]) = Timeout) ∧
  (∃ st, importParts ImportExample.files 1 (ImportExample.start ["b.xsd"; "b.xsd"])
         = Done (st, None) ∧
         ImportExample.fetches "b.xsd" st = 2%nat).
Proof.
  split.
  - intros fuel. unfold importParts. simpl. unfold importSchema. simpl.
    rewrite includeImport_file_cycle; [reflexivity|]. vm_compute. set_solver.
  - eexists. split; vm_compute; reflexivity.
Qed.

(** The branch for [http] does mark the location: the same graph behind
    [http] is resolved with one fetch of each location. *)
Example importParts_web_cycle :
  ∃ st, importParts ImportExample.web 2
          (ImportExample.start [ImportExample.a_url; ImportExample.b_url; ImportExample.b_url])
        = Done (st, None) ∧
        ImportExample.fetches ImportExample.a_url st = 1%nat ∧
        ImportExample.fetches ImportExample.b_url st = 1%nat.
Proof. eexists. split_and!; vm_compute; reflexivity. Qed.

(** An import of the schema itself that cannot be retrieved is an error of
    [importParts], and of [encode]. *)
Example importParts_direct_failure :
  ∃ st, importParts ImportExample.web 2 (ImportExample.start [ImportExample.missing_url])
        = Done (st, Some "no such host").
Proof. eexists. vm_compute. reflexivity. Qed.

(** C3.  The schema imports [c.xsd], which imports a location that cannot
    be retrieved.  The location is fetched, the error is dropped:
    [importParts] returns no error, and [Encode] returns no error and writes
    the generated text. *)
Theorem importParts_transitive_failure :
  world_content ImportExample.web ImportExample.missing_url = Unreachable "no such host" ∧
  (∃ st, importParts ImportExample.web 2 (ImportExample.start [ImportExample.c_url])
         = Done (st, None) ∧
         ImportExample.fetches ImportExample.missing_url st = 1%nat) ∧
  ∃ text calls,
    Encode EncodeExample.CopyEnrich ImportExample.web EncodeExample.BindingPackageName
      EncodeExample.catalogTypes EncodeExample.parseFile EncodeExample.gofmtPath
      EncodeExample.gofmt EncodeExample.in_order 2 NewEncoder
      (Some (ImportExample.root [ImportExample.c_url]))
    = Done (None, text, calls) ∧ HasPrefix text "package main" = true.
Proof.
  split; [reflexivity|]. split.
  - eexists. split; vm_compute; reflexivity.
  - eexists _, _. split; vm_compute; reflexivity.
Qed.

(** ** The client functions *)

Arguments Execute : simpl never.

(** The template of the action functions prints neither the name of the
    round-trip function nor the action. *)
Lemma Execute_soapActionFuncT_actions rt a rt' a' gct name opname intype innames
    respname resptype outnames outprefixes input output retdef rpc :
  Execute soapActionFuncT
    (mkTemplateValue rt a gct name opname intype innames respname resptype outnames
       outprefixes input output retdef rpc) =
  Execute soapActionFuncT
    (mkTemplateValue rt' a' gct name opname intype innames respname resptype outnames
       outprefixes input output retdef rpc).
Proof. reflexivity. Qed.

Lemma effective_action_empty bo :
  effective_action bo = "" ↔
  BindingOperation_Action bo = "" ∧ BindingOperation_Action11 bo = "".
Proof.
  unfold effective_action. destruct (decide (BindingOperation_Action bo = "")); naive_solver.
Qed.

Lemma Execute_with_actions rt a v :
  Execute soapActionFuncT (with_actions rt a v) = Execute soapActionFuncT v.
Proof. destruct v. apply Execute_soapActionFuncT_actions. Qed.

(** The end of [writeSOAPFunc]: the choice of the template. *)
Lemma select_template (bo : BindingOperation) (v : templateValue) :
  (let '(soapFunctionName, soapAction) :=
     if decide (BindingOperation_Action bo = "")
     then ("RoundTripWithAction", BindingOperation_Action11 bo)
     else ("RoundTripSoap12", BindingOperation_Action bo) in
   if decide (soapAction ≠ "")
   then Done (Execute soapActionFuncT (with_actions soapFunctionName soapAction v), true)
   else Done (Execute soapFuncT (with_actions "" "" v), true))
  = Done (Execute (if decide (effective_action bo = "") then soapFuncT
                   else soapActionFuncT) (with_actions "" "" v), true).
Proof.
  unfold effective_action.
  destruct (decide (BindingOperation_Action bo = "")) as [Ha|Ha].
  - destruct (decide (BindingOperation_Action11 bo ≠ "")) as [Hb|Hb].
    + rewrite decide_False by done. by rewrite !Execute_with_actions.
    + apply dec_stable in Hb. by rewrite decide_True.
  - rewrite decide_True by done. rewrite decide_False by done.
    by rewrite !Execute_with_actions.
Qed.

(** For a bound operation, [writeSOAPFunc] executes one of two templates.
    When the binding operation has an action, the SOAP 1.2 one or else the
    SOAP 1.1 one, it is [soapActionFuncT]; when it has neither, it is
    [soapFuncT].  Which of the two actions is present does not change the
    text: any binding operation that has an action exactly when this one
    has gives the same text. *)
Lemma writeSOAPFunc_templates ge d op in_ out bo text ok :
  ge_soapOps ge !! Operation_Name op = Some bo →
  writeSOAPFunc ge d op in_ out = Done (text, ok) →
  ok = true ∧
  (∃ v, tv_Name v = goSymbol (Operation_Name op) ∧
        tv_Input v = inputArgs (code in_) ∧
        tv_Output v = Join (dataType <$> out) "," ∧
        text = Execute (if decide (effective_action bo = "") then soapFuncT
                        else soapActionFuncT) v) ∧
  ∀ bo', (effective_action bo' = "" ↔ effective_action bo = "") →
         writeSOAPFunc (bind_operation (Operation_Name op) bo' ge) d op in_ out
         = Done (text, true).
Proof.
  intros Hbo H. unfold writeSOAPFunc in H. rewrite Hbo in H.
  assert (∀ bo', ge_soapOps (bind_operation (Operation_Name op) bo' ge)
                   !! Operation_Name op = Some bo') as Hbo'.
  { intros bo'. unfold bind_operation. destruct ge; simpl. apply lookup_insert_eq. }
  assert (∀ bo', ge_funcs (bind_operation (Operation_Name op) bo' ge) = ge_funcs ge ∧
                 ge_messages (bind_operation (Operation_Name op) bo' ge) = ge_messages ge ∧
                 getGoClientType (bind_operation (Operation_Name op) bo' ge) d
                 = getGoClientType ge d) as Hsame.
  { intros bo'. unfold bind_operation, getGoClientType. by destruct ge. }
  unfold writeSOAPFunc. setoid_rewrite Hbo'.
  destruct (reverse out) as [|last rev_results]; [discriminate|].
  inv_bind H as names Hnames. rewrite Hnames. simpl.
  inv_bind H as func Hfunc. inv_bind H as message Hmessage.
  inv_bind H as intype Hintype. inv_bind H as types Htypes. destruct types as [intype' outtype].
  inv_bind H as gct Hgct.
  lazymatch type of H with
  | context [Execute soapFuncT ?v] => set (v0 := v) in *
  end.
  assert (∀ b : BindingOperation,
            (let '(soapFunctionName, soapAction) :=
               if decide (BindingOperation_Action b = "")
               then ("RoundTripWithAction", BindingOperation_Action11 b)
               else ("RoundTripSoap12", BindingOperation_Action b) in
             if decide (soapAction ≠ "")
             then Done (Execute soapActionFuncT (with_actions soapFunctionName soapAction v0),
                        true)
             else Done (Execute soapFuncT v0, true))
            = Done (Execute (if decide (effective_action b = "") then soapFuncT
                             else soapActionFuncT) v0, true)) as Hsel.
  { intros b. exact (select_template b v0). }
  assert (Done (Execute (if decide (effective_action bo = "") then soapFuncT
                         else soapActionFuncT) v0, true) = Done (text, ok)) as Htext.
  { rewrite <-(Hsel bo). exact H. }
  inversion Htext; subst text ok. clear H Htext.
  split_and!; [done|by exists v0|].
  intros bo' Hiff.
  destruct (Hsame bo') as (-> & -> & ->). rewrite Hfunc. simpl.
  rewrite Hmessage. simpl. rewrite Hintype. simpl. rewrite Htypes. simpl.
  rewrite Hgct. simpl.
  etrans; [exact (Hsel bo')|].
  destruct (decide (effective_action bo' = "")), (decide (effective_action bo = ""));
    naive_solver.
Qed.

(** The template [soapActionFuncT] starts with three statements on the
    first input: for an operation whose input message has no part, the
    execution of the template stops at the first of them, [writeSOAPFunc]
    drops the error, and the function is cut off after its first line. *)
Example writeSOAPFunc_no_input_stops :
  writeSOAPFunc NoInputExample.encoder NoInputExample.service NoInputExample.Ping
    [] [mkParameter "result" "string" "string"; mkParameter "err" "error" ""]
  = Done ("func (c *pingPort) Ping(ctx context.Context) (string,error) {" +:+ nl +:+ "    ",
          true).
Proof. vm_compute. reflexivity. Qed.

(** Without an action, the function written is the one of [soapFuncT]: a
    round trip through [RoundTripWithAction]. *)
Example writeSOAPFunc_no_action :
  injects (ServiceExample.written "" "") = false ∧
  Contains (ServiceExample.written "" "") "c.cli.RoundTripWithAction(" = true.
Proof. split; vm_compute; reflexivity. Qed.

(** C4.  The operation [GetQuote] is bound with the primary (SOAP 1.2)
    action [urn:GetQuote] and no secondary one.  [writeSOAPFunc] works out
    the round-trip function [RoundTripSoap12] and the action and hands both
    to the template, which prints neither: the function written is not a
    plain dispatch on the action, it is the one that writes the version, the
    namespace and the party into the first input and takes the result out of
    the body of the reply.  It is, byte for byte, the function written when
    only the secondary (SOAP 1.1) action is present.  [writeGoClientFuncs]
    writes it after the comment of the operation. *)
Theorem writeSOAPFunc_primary_action :
  writeSOAPFunc (ServiceExample.encoder true "urn:GetQuote" "")
    (ServiceExample.service true "urn:GetQuote" "") ServiceExample.GetQuote
    ServiceExample.inParams ServiceExample.outParams
  = Done (ServiceExample.action_text, true) ∧
  writeSOAPFunc (ServiceExample.encoder true "" "urn:GetQuote")
    (ServiceExample.service true "" "urn:GetQuote") ServiceExample.GetQuote
    ServiceExample.inParams ServiceExample.outParams
  = Done (ServiceExample.action_text, true) ∧
  (∃ ge,
     writeGoClientFuncs (ServiceExample.encoder true "urn:GetQuote" "")
       (ServiceExample.service true "urn:GetQuote" "")
     = Done (ge,
             "// GetQuote was auto-generated from WSDL." +:+ nl +:+
             ServiceExample.action_text, None)) ∧
  injects ServiceExample.action_text = true ∧
  Contains ServiceExample.action_text "RoundTripSoap12" = false ∧
  Contains ServiceExample.action_text "urn:GetQuote" = false.
Proof.
  split; [vm_compute; reflexivity|].
  split; [vm_compute; reflexivity|].
  split; [eexists; vm_compute; reflexivity|].
  split_and!; vm_compute; reflexivity.
Qed.

(** ** The type declarations *)

(** Before flattening, [genGoStruct] declares the wildcard type as
    [[]interface{}]. *)
Example genGoStruct_wildcard :
  genGoStruct EncodeExample.CopyEnrich WildcardExample.registered "urn:any"
    WildcardExample.Anything
  = Done (WildcardExample.registered, WildcardExample.slice_text, None).
Proof. vm_compute. reflexivity. Qed.

(** A flat complex type has no sequence and no choice left: the two tests of
    [genGoStruct] for wildcard content fail, and the declaration written is
    that of an interface or of a struct. *)
Lemma genGoStruct_flat CE ge tn ct ge' text e :
  flat ct →
  genGoStruct CE ge tn ct = Done (ge', text, e) →
  ∃ rest,
    text = writeComments (goSymbol (ComplexType_Name ct)) (ComplexType_Doc ct) +:+
           "type " +:+ goSymbol (ComplexType_Name ct) +:+ rest ∧
    (rest = " interface{}" +:+ nl +:+ nl ∨ HasPrefix rest " struct {" = true).
Proof.
  intros (Hseq & Hch & _ & _) H. unfold genGoStruct in H.
  unfold sequence_is_wildcard, choice_is_wildcard in H. rewrite Hseq, Hch in H.
  destruct (ComplexType_Abstract ct).
  { inversion H; subst. eexists. split; [reflexivity|]. by left. }
  repeat match type of H with
  | context [match ?x with _ => _ end] => destruct x eqn:?
  end; try discriminate;
  repeat match goal with
  | H : _ ≫= _ = Done _ |- _ => inv_bind H as r Hr; destruct r as [[? ?] ?]
  | H : Done _ = Done _ |- _ => inversion H; subst; clear H
  end;
  (eexists; split; [rewrite ?append_assoc; reflexivity|right; apply HasPrefix_append]).
Qed.

(** C5.  The complex type [Anything], whose only content is a wildcard, is
    registered; the last loop of [cacheTypes] flattens it, which clears its
    sequence, and [writeGoTypes] then declares it as an empty struct, not as
    [[]interface{}]. *)
Theorem wildcard_written_as_struct :
  ∃ ge1 ge2,
    flattenTypes EncodeExample.in_order 1 WildcardExample.registered = Done ge1 ∧
    writeGoTypes EncodeExample.CopyEnrich ge1 "urn:any"
    = Done (ge2, WildcardExample.struct_text, None) ∧
    Contains WildcardExample.struct_text "[]interface{}" = false.
Proof.
  eexists _, _. split; [vm_compute; reflexivity|].
  split; vm_compute; reflexivity.
Qed.

(** *** The panic of [writeGoTypes] *)

Lemma same_catalog_refl ge : same_catalog ge ge.
Proof. by repeat split. Qed.

Lemma same_catalog_trans ge1 ge2 ge3 :
  same_catalog ge1 ge2 → same_catalog ge2 ge3 → same_catalog ge1 ge3.
Proof. unfold same_catalog. intros (?&?&?&?&?&?) (?&?&?&?&?&?). split_and!; congruence. Qed.

Lemma wsdl2goType_catalog ge t : same_catalog ge (wsdl2goType ge t).1.
Proof.
  unfold wsdl2goType.
  repeat match goal with
  | |- context [if ?c then _ else _] => destruct c
  | |- context [match ?x with Some _ => _ | None => _ end] => destruct x
  end; simpl; try apply same_catalog_refl; by destruct ge.
Qed.

Lemma genValidator_catalog ge n r : same_catalog ge (genValidator ge n r).1.
Proof.
  unfold genValidator. destruct (Restriction_Enum r); [apply same_catalog_refl|].
  pose proof (wsdl2goType_catalog ge (Restriction_Base r)) as H.
  destruct (wsdl2goType ge (Restriction_Base r)) as [ge1 t]. simpl in *.
  eapply same_catalog_trans; [exact H|]. by destruct ge1.
Qed.

(** A round of the loop over the members of a union returns, leaving the
    registries as they are, or panics: then the member is not blank and no
    key of the registry, and the message names it. *)
Lemma union_member_cases stname ge ntypes bases t :
  (∃ ge' ntypes' bases',
      union_member stname (ge, ntypes, bases) t = Done (ge', ntypes', bases') ∧
      same_catalog ge ge') ∨
  (TrimSpace t ≠ "" ∧ ge_stypes ge !! TrimSpace t = None ∧
   union_member stname (ge, ntypes, bases) t = Fault (union_panic stname (TrimSpace t))).
Proof.
  unfold union_member.
  destruct (decide (TrimSpace t = "")) as [|Hblank].
  { left. eexists _, _, _. split; [reflexivity|apply same_catalog_refl]. }
  pose proof (wsdl2goType_catalog ge (TrimSpace t)) as H.
  destruct (wsdl2goType ge (TrimSpace t)) as [ge1 gt]. simpl in H.
  destruct (ge_stypes ge1 !! TrimSpace t) as [st|] eqn:Hst.
  - left. destruct (SimpleType_Restriction st); eexists _, _, _; split; done.
  - right. destruct H as (Hs & _). rewrite Hs in Hst. done.
Qed.

Lemma union_member_missing stname ge ntypes bases t :
  TrimSpace t ≠ "" → ge_stypes ge !! TrimSpace t = None →
  union_member stname (ge, ntypes, bases) t = Fault (union_panic stname (TrimSpace t)).
Proof.
  intros Ht Hmiss. unfold union_member. rewrite decide_False by done.
  pose proof (wsdl2goType_catalog ge (TrimSpace t)) as (Hst & _).
  destruct (wsdl2goType ge (TrimSpace t)) as [ge1 gt]. simpl in Hst.
  by rewrite Hst, Hmiss.
Qed.

(** The loop over the members returns, leaving the registries as they are,
    or panics at a member that is no key of the registry. *)
Lemma union_members_cases stname members ge ntypes bases :
  (∃ ge' ntypes' bases',
      foldlM (union_member stname) (ge, ntypes, bases) members = Done (ge', ntypes', bases') ∧
      same_catalog ge ge') ∨
  (∃ t, t ∈ members ∧ TrimSpace t ≠ "" ∧ ge_stypes ge !! TrimSpace t = None ∧
        foldlM (union_member stname) (ge, ntypes, bases) members
        = Fault (union_panic stname (TrimSpace t))).
Proof.
  revert ge ntypes bases. induction members as [|x members IH]; intros ge ntypes bases.
  { left. eexists _, _, _. split; [reflexivity|apply same_catalog_refl]. }
  rewrite foldlM_cons. destruct (union_member_cases stname ge ntypes bases x)
    as [(ge' & nt' & b' & -> & Hcat)|(Hx & Hmiss & ->)]; simpl.
  2:{ right. exists x. split_and!; [left|done..]. }
  destruct (IH ge' nt' b') as [(ge2 & nt2 & b2 & -> & Hcat2)|(t & Hin & Ht & Hmiss & ->)].
  - left. eexists _, _, _. split; [reflexivity|]. by eapply same_catalog_trans.
  - right. exists t. split_and!; [by right|done| |done].
    destruct Hcat as (<- & _). done.
Qed.

(** With a member that is no key of the registry, the loop does panic. *)
Lemma union_members_fault stname members t ge ntypes bases :
  t ∈ members → TrimSpace t ≠ "" → ge_stypes ge !! TrimSpace t = None →
  ∃ t', t' ∈ members ∧ TrimSpace t' ≠ "" ∧ ge_stypes ge !! TrimSpace t' = None ∧
        foldlM (union_member stname) (ge, ntypes, bases) members
        = Fault (union_panic stname (TrimSpace t')).
Proof.
  intros Hin Ht. revert ge ntypes bases.
  induction members as [|x members IH]; intros ge ntypes bases Hmiss;
    [by apply elem_of_nil in Hin|].
  rewrite foldlM_cons. apply elem_of_cons in Hin as [->|Hin].
  - rewrite union_member_missing by done. simpl.
    exists x. split_and!; [left|done..].
  - destruct (union_member_cases stname ge ntypes bases x)
      as [(ge' & nt' & b' & -> & Hcat)|(Hx & Hxmiss & ->)]; simpl.
    + destruct Hcat as (Hs & _).
      destruct (IH Hin ge' nt' b') as (t' & Hin' & Ht' & Hmiss' & ->); [by rewrite Hs|].
      exists t'. split_and!; [by right|done| |done]. by rewrite <-Hs.
    + exists x. split_and!; [left|done..].
Qed.

(** A round of the loop over the simple types, for a key of the registry:
    it returns, leaving the registries as they are, or it panics at a
    member of a union that is no key of the registry. *)
Lemma writeSimpleType_cases ge b name :
  is_Some (ge_stypes ge !! name) →
  (∃ ge' b', writeSimpleType (ge, b) name = Done (ge', b') ∧ same_catalog ge ge') ∨
  (∃ st t, missing_member ge name st t ∧
           writeSimpleType (ge, b) name
           = Fault (union_panic (goSymbol (SimpleType_Name st)) (TrimSpace t))).
Proof.
  intros [st Hst]. unfold writeSimpleType. rewrite Hst.
  destruct (SimpleType_Restriction st) as [r|] eqn:Hr.
  - left.
    pose proof (wsdl2goType_catalog ge (Restriction_Base r)) as H1.
    destruct (wsdl2goType ge (Restriction_Base r)) as [ge1 base]. simpl in H1.
    pose proof (genValidator_catalog ge1 (goSymbol (SimpleType_Name st)) r) as H2.
    destruct (genValidator ge1 (goSymbol (SimpleType_Name st)) r) as [ge2 v]. simpl in H2.
    eexists _, _. split; [reflexivity|]. by eapply same_catalog_trans.
  - destruct (SimpleType_Union st) as [u|] eqn:Hu.
    2:{ left. eexists _, _. split; [reflexivity|apply same_catalog_refl]. }
    destruct (union_members_cases (goSymbol (SimpleType_Name st))
                (Split (Union_MemberTypes u) " "%char) ge [] ∅)
      as [(ge' & nt' & b' & -> & Hcat)|(t & Hin & Ht & Hmiss & ->)]; simpl.
    2:{ right. exists st, t. split; [|done]. split_and!; eauto. }
    left. destruct (foldl union_anonymous (nt', b') (Union_SimpleTypes u)) as [nt2 b2].
    destruct (elements b2) as [|base [|? ?]]; try (eexists _, _; split; [reflexivity|done]).
    pose proof (wsdl2goType_catalog ge' base) as H1.
    destruct (wsdl2goType ge' base) as [ge1 gbase]. simpl in H1.
    eexists _, _. split; [reflexivity|]. by eapply same_catalog_trans.
Qed.

Lemma missing_member_catalog ge ge' name st t :
  same_catalog ge ge' → missing_member ge' name st t → missing_member ge name st t.
Proof.
  intros (Hs & _) (H1 & H2 & H3 & H4 & H5). rewrite Hs in H1, H5. by split_and!.
Qed.

Lemma writeSimpleType_union_fault ge b name st t :
  missing_member ge name st t →
  ∃ t', missing_member ge name st t' ∧
        writeSimpleType (ge, b) name
        = Fault (union_panic (goSymbol (SimpleType_Name st)) (TrimSpace t')).
Proof.
  intros (Hst & Hr & (u & Hu & Hin) & Ht & Hmiss).
  unfold writeSimpleType. rewrite Hst, Hr, Hu.
  destruct (union_members_fault (goSymbol (SimpleType_Name st)) _ t ge [] ∅ Hin Ht Hmiss)
    as (t' & Hin' & Ht' & Hmiss' & ->).
  simpl. exists t'. split; [|done]. split_and!; eauto.
Qed.

(** The loop over the simple types, for keys of the registry among which is
    a union with a member that is no key: it panics at such a member. *)
Lemma writeSimpleTypes_fault names ge b name st t :
  (∀ x, x ∈ names → is_Some (ge_stypes ge !! x)) →
  name ∈ names → missing_member ge name st t →
  ∃ name' st' t', missing_member ge name' st' t' ∧
    foldlM writeSimpleType (ge, b) names
    = Fault (union_panic (goSymbol (SimpleType_Name st')) (TrimSpace t')).
Proof.
  intros Hkeys Hname. revert ge b Hkeys.
  induction names as [|x names IH]; intros ge b Hkeys Hmiss; [by apply elem_of_nil in Hname|].
  rewrite foldlM_cons.
  destruct (writeSimpleType_cases ge b x)
    as [(ge' & b' & Hx & Hcat)|(st' & t' & Hmiss' & Hx)]; [apply Hkeys; left| |].
  - apply elem_of_cons in Hname as [->|Hname].
    + destruct (writeSimpleType_union_fault ge b x st t Hmiss) as (t' & _ & Hf).
      rewrite Hf in Hx. discriminate.
    + rewrite Hx. simpl.
      assert (missing_member ge' name st t) as Hmiss2.
      { destruct Hcat as (Hs & _). destruct Hmiss as (H1 & H2 & H3 & H4 & H5).
        rewrite <-Hs in H1, H5. by split_and!. }
      destruct (IH Hname ge' b') as (name' & st' & t' & Hm & ->); [|done|].
      { intros y Hy. destruct Hcat as (Hs & _). rewrite Hs. apply Hkeys. by right. }
      exists name', st', t'. split; [|done]. by eapply missing_member_catalog.
  - rewrite Hx. simpl. exists x, st', t'. done.
Qed.

(** C9.  When a simple type of the registry is a union (and no restriction)
    and one of the names its [memberTypes] lists, blank ones apart, is not a
    key of the registry of simple types, [writeGoTypes] panics: it does not
    return, neither with an error nor without.  The message of the panic
    names such a union and such a member of it: it is the text
    [Union for 'U': simple type 'T' must be in ge.stypes], where [U] is the
    Go name of the union and [T] the member, without the white space around
    it. *)
Theorem writeGoTypes_union_panics CE ge targetNamespace name st t :
  missing_member ge name st t →
  ∃ name' st' t',
    missing_member ge name' st' t' ∧
    writeGoTypes CE ge targetNamespace
    = Fault ("Union for '" +:+ goSymbol (SimpleType_Name st') +:+ "': simple type '" +:+
             TrimSpace t' +:+ "' must be in ge.stypes").
Proof.
  intros Hmiss. unfold writeGoTypes.
  destruct (writeSimpleTypes_fault (sortedSimpleTypes ge) ge "" name st t)
    as (name' & st' & t' & Hm & ->); [| |done|].
  - intros x. unfold sortedSimpleTypes, sort_strings.
    rewrite merge_sort_Permutation. intros Hx%elem_of_elements. by apply elem_of_dom.
  - unfold sortedSimpleTypes, sort_strings.
    rewrite merge_sort_Permutation. apply elem_of_elements, elem_of_dom.
    destruct Hmiss as (-> & _). eauto.
  - simpl. exists name', st', t'. done.
Qed.

Lemma writeGoTypes_union_panics_witness :
  ∃ name' st' t',
    missing_member UnionExample.registered name' st' t' ∧
    writeGoTypes EncodeExample.CopyEnrich UnionExample.registered ""
    = Fault ("Union for '" +:+ goSymbol (SimpleType_Name st') +:+ "': simple type '" +:+
             TrimSpace t' +:+ "' must be in ge.stypes").
Proof.
  apply (writeGoTypes_union_panics EncodeExample.CopyEnrich UnionExample.registered ""
           "Size" UnionExample.Size "tns:Small").
  split_and!.
  - vm_compute. reflexivity.
  - reflexivity.
  - exists (mkUnion "tns:Small Large" []). split; [reflexivity|]. vm_compute. left.
  - vm_compute. discriminate.
  - vm_compute. reflexivity.
Defined.

Example writeGoTypes_union_panic_message :
  writeGoTypes EncodeExample.CopyEnrich UnionExample.registered ""
  = Fault "Union for 'Size': simple type 'tns:Small' must be in ge.stypes".
Proof. vm_compute. reflexivity. Qed.

(** White space beyond ASCII around a member is cut off as well: with a
    no-break space after [Large], the member is found and the union is
    declared. *)
Example writeGoTypes_union_no_break_space :
  TrimSpace ("Large" +:+ String "194"%char (String "160"%char EmptyString)) = "Large" ∧
  ∃ ge,
    writeGoTypes EncodeExample.CopyEnrich
      (set_registry
         (<["Size" := mkSimpleType "Size" "" None
                        (Some (mkUnion ("Large" +:+ String "194"%char
                                                      (String "160"%char EmptyString)) []))]>
            (<["Large" := UnionExample.Large]> ∅)) ∅ ∅ NewEncoder) ""
    = Done (ge,
            "// Large was auto-generated from WSDL." +:+ nl +:+
            "type Large int" +:+ nl +:+ nl +:+
            "// Size is a union of: Large" +:+ nl +:+
            "type Size int" +:+ nl +:+ nl, None).
Proof. split; [vm_compute; reflexivity|]. eexists. vm_compute. reflexivity. Qed.

(** ** Operations without a binding operation *)

Lemma length_append (a b : string) :
  String.length (a +:+ b) = (String.length a + String.length b)%nat.
Proof.
  induction a as [|c a IH]; [done|].
  change (S (String.length (a +:+ b)) = S (String.length a + String.length b)).
  by rewrite IH.
Qed.

Lemma append_nil_r (a : string) : a +:+ "" = a.
Proof.
  induction a as [|c a IH]; [done|].
  change (String c (a +:+ "") = String c a). by rewrite IH.
Qed.

Lemma fixFuncNameConflicts_go_total fuel ge name :
  (size (filter (λ s, String.length name ≤ String.length s)%nat
           (dom (ge_stypes ge) ∪ dom (ge_ctypes ge))) < fuel)%nat →
  ∃ r, fixFuncNameConflicts_go fuel ge name = Done r.
Proof.
  revert name. induction fuel as [|fuel IH]; intros name Hsize; [lia|].
  assert (name ∈ dom (ge_stypes ge) ∪ dom (ge_ctypes ge) →
          ∃ r, fixFuncNameConflicts_go fuel ge (name +:+ "Func") = Done r) as Hnext.
  { intros Hin. apply IH.
    eapply Nat.lt_le_trans; [|apply Nat.lt_succ_r, Hsize].
    apply subset_size. split.
    - intros s. rewrite !elem_of_filter, length_append. simpl. intros [? ?]. split; [lia|done].
    - intros Hsub. specialize (Hsub name).
      rewrite !elem_of_filter, length_append in Hsub. simpl in Hsub.
      destruct Hsub as [? _]; [by split|lia]. }
  simpl.
  destruct (decide (is_Some (ge_stypes ge !! name))) as [Hs|Hs].
  { apply Hnext, elem_of_union. left. by apply elem_of_dom. }
  destruct (decide (is_Some (ge_ctypes ge !! name))) as [Hc|Hc].
  { apply Hnext, elem_of_union. right. by apply elem_of_dom. }
  eauto.
Qed.

(** [fixFuncNameConflicts] returns: the names it tries grow longer, and each
    one that is tried and rejected is one of the finitely many type names. *)
Lemma fixFuncNameConflicts_total ge name :
  ∃ r, fixFuncNameConflicts ge name = Done r.
Proof.
  apply fixFuncNameConflicts_go_total. apply Nat.lt_succ_r, subseteq_size.
  intros s. rewrite elem_of_filter. tauto.
Qed.

Lemma genParams_catalog ge m : same_catalog ge (genParams ge m false).1.
Proof.
  unfold genParams.
  match goal with
  | |- same_catalog _ (foldl ?f _ _).1 => set (F := f)
  end.
  generalize (@nil parameter). revert ge.
  induction (Message_Parts m) as [|param parts IH]; intros ge acc;
    [apply same_catalog_refl|].
  change (foldl F (ge, acc) (param :: parts)) with (foldl F (F (ge, acc) param) parts).
  assert (∃ ge1 acc1, F (ge, acc) param = (ge1, acc1) ∧ same_catalog ge ge1)
    as (ge1 & acc1 & -> & Hc).
  { unfold F. destruct (decide (Part_Type param ≠ "")).
    - pose proof (wsdl2goType_catalog ge (Part_Type param)) as H.
      destruct (wsdl2goType ge (Part_Type param)). eauto.
    - destruct (decide (Part_Element param ≠ "")); [|eexists _, _; split;
                                                       [done|apply same_catalog_refl]].
      destruct (ge_elements ge !! trimns (Part_Element param)) as [el|].
      + pose proof (wsdl2goType_catalog ge (trimns (Element_Type el))) as H.
        destruct (wsdl2goType ge (trimns (Element_Type el))). eauto.
      + pose proof (wsdl2goType_catalog ge (Part_Element param)) as H.
        destruct (wsdl2goType ge (Part_Element param)). eauto. }
  eapply same_catalog_trans; [exact Hc|apply IH].
Qed.

Lemma inputParams_catalog ge op : same_catalog ge (inputParams ge op).1.
Proof.
  unfold inputParams. destruct (Operation_Input op); [|apply same_catalog_refl].
  destruct (ge_messages ge !! _) as [req|]; [|apply same_catalog_refl].
  pose proof (genParams_catalog ge req) as H. by destruct (genParams ge req false).
Qed.

Lemma outputParams_catalog ge op : same_catalog ge (outputParams ge op).1.
Proof.
  unfold outputParams. destruct (Operation_Output op); [|apply same_catalog_refl].
  destruct (ge_messages ge !! _) as [req|]; [|apply same_catalog_refl].
  pose proof (genParams_catalog ge req) as H. by destruct (genParams ge req false).
Qed.

(** The output parameters end with the error. *)
Lemma outputParams_error ge op ge' outParams :
  outputParams ge op = (ge', (outParams, None)) →
  ∃ results, outParams = results ++ [mkParameter "err" "error" ""].
Proof.
  unfold outputParams. destruct (Operation_Output op).
  - destruct (ge_messages ge !! _) as [resp|]; [|discriminate].
    destruct (genParams ge resp false). intros H; inversion H; subst. eauto.
  - intros H; inversion H; subst. by exists [].
Qed.

(** An operation without a binding operation is left out of the
    interface. *)
Lemma interfaceFunc_unbound ge funcs fn op :
  ge_funcs ge !! fn = Some op → ge_soapOps ge !! Operation_Name op = None →
  interfaceFunc (ge, funcs, None) fn = Done (ge, funcs, None).
Proof. intros Hop Hbo. unfold interfaceFunc. by rewrite Hop, Hbo. Qed.

(** For an operation without a binding operation whose messages are
    defined, [writeGoClientFuncs] writes the comment and a function of the
    parameters and results of the operation that returns the defaults of
    [wsdl2goDefault] for the results and, last, the error
    [errors.New("not implemented")]. *)
Lemma clientFunc_unbound d ge w fn op ge1 inParams ge2 outParams :
  ge_funcs ge !! fn = Some op → ge_soapOps ge !! Operation_Name op = None →
  inputParams ge op = (ge1, (inParams, None)) →
  outputParams ge1 op = (ge2, (outParams, None)) →
  ∃ ge' name results,
    clientFunc d (ge, w, None) fn =
      Done (ge', (w +:+ writeComments (Operation_Name op) (Operation_Doc op)) +:+
                 stub name inParams outParams, None) ∧
    outParams = results ++ [mkParameter "err" "error" ""] ∧
    (λ p, wsdl2goDefault (dataType p)) <$> outParams =
      ((λ p, wsdl2goDefault (dataType p)) <$> results) ++
      ["errors.New(" +:+ dq +:+ "not implemented" +:+ dq +:+ ")"].
Proof.
  intros Hop Hbo Hin Hout.
  destruct (outputParams_error _ _ _ _ Hout) as [results ->].
  pose proof (inputParams_catalog ge op) as Hc1. rewrite Hin in Hc1.
  pose proof (outputParams_catalog ge1 op) as Hc2. rewrite Hout in Hc2.
  simpl in Hc1, Hc2.
  pose proof (same_catalog_trans _ _ _ Hc1 Hc2) as (_ & _ & _ & _ & _ & Hops).
  unfold clientFunc. rewrite Hop, Hin, Hout.
  assert (writeSOAPFunc ge2 d op inParams (results ++ [mkParameter "err" "error" ""])
          = Done ("", false)) as ->.
  { unfold writeSOAPFunc. by rewrite Hops, Hbo. }
  simpl.
  match goal with
  | |- context [fixFuncNameConflicts ?g ?n] =>
      destruct (fixFuncNameConflicts_total g n) as [name ->]
  end.
  simpl. eexists _, name, results. split; [|split; [done|]].
  - by rewrite append_nil_r.
  - rewrite fmap_app. reflexivity.
Qed.

(** C7.  The operation [Ping] has no binding operation.  It is left out of
    the interface, and [writeGoClientFuncs] writes a function for it that
    returns [errors.New("not implemented")] as its error.  The value it
    returns with the error is the zero value when the result is a string; it
    is [&byte{}] for a result of type [byte] and [&DateTime{}] for a result of
    the string type [DateTime], which are not values of these types. *)
Theorem unbound_stub_defaults :
  (∃ ge, interfaceFuncs (UnboundExample.encoder "xsd:unsignedByte") = Done (ge, [], None)) ∧
  (∃ ge, writeGoClientFuncs (UnboundExample.encoder "xsd:string")
           (UnboundExample.service "xsd:string")
         = Done (ge, UnboundExample.stub_text "string" (dq +:+ dq), None)) ∧
  (∃ ge, writeGoClientFuncs (UnboundExample.encoder "xsd:unsignedByte")
           (UnboundExample.service "xsd:unsignedByte")
         = Done (ge, UnboundExample.stub_text "byte" "&byte{}", None)) ∧
  (∃ ge, writeGoClientFuncs (UnboundExample.encoder "xsd:dateTime")
           (UnboundExample.service "xsd:dateTime")
         = Done (ge, UnboundExample.stub_text "DateTime" "&DateTime{}", None)) ∧
  (∃ ge, wsdl2goType NewEncoder "xsd:dateTime" = (ge, "DateTime") ∧
         genDateTypes ge =
           "// DateTime in WSDL format." +:+ nl +:+ "type DateTime string" +:+ nl +:+ nl).
Proof.
  split; [eexists; vm_compute; reflexivity|].
  split; [eexists; vm_compute; reflexivity|].
  split; [eexists; vm_compute; reflexivity|].
  split; [eexists; vm_compute; reflexivity|].
  eexists. split; vm_compute; reflexivity.
Qed.
